(** * Realtime device presence and command dispatch

    A shallow embedding of the WebSocket subsystem of the signage backend:
    the fuller handler (the module that declares [deviceConnections] and
    [adminConnections], exports [setupWebSocket], [broadcastToDevice] and
    [broadcastToAdmins] and installs the offline-cleanup interval) and the
    simplified variant inlined in [backend/server.js].

    JavaScript runs the handlers on one thread; an [async] function runs
    until its next [await] and is resumed when the awaited backing-store
    request completes.  The embedding therefore splits every handler at
    its [await]s: the code up to the first [await] is a function on the
    in-memory state, and every later segment is a constructor of [Cont]
    interpreted by [resume].  Events of the outside world (a frame
    arriving, a channel closing, the cleanup interval firing, the backing
    store answering) are interleaved freely by [exec]. *)

From Stdlib Require Import List String ZArith Bool Arith Lia.
Import ListNotations.
Local Open Scope string_scope.

(** ** JavaScript [Map]

    ECMAScript keeps the entries of a [Map] in a list in insertion order;
    [delete] empties the slot of the entry and leaves it in the list, [set]
    overwrites the value of an existing key in place and appends a new key
    at the end.  An iterator is an index into that list and skips emptied
    slots, which is what makes iterating a map that changes during the
    iteration well defined. *)

Module JSMap.
Section Defs.
Context {V : Type}.

Definition t : Type := list (option (string * V)).

Definition empty : t := [].

Fixpoint get (m : t) (k : string) : option V :=
  match m with
  | [] => None
  | None :: m' => get m' k
  | Some (k', v) :: m' => if String.eqb k' k then Some v else get m' k
  end.

Definition has (m : t) (k : string) : bool :=
  match get m k with Some _ => true | None => false end.

Fixpoint set (m : t) (k : string) (v : V) : t :=
  match m with
  | [] => [Some (k, v)]
  | None :: m' => None :: set m' k v
  | Some (k', v') :: m' =>
      if String.eqb k' k then Some (k, v) :: m'
      else Some (k', v') :: set m' k v
  end.

Fixpoint delete (m : t) (k : string) : t :=
  match m with
  | [] => []
  | None :: m' => None :: delete m' k
  | Some (k', v') :: m' =>
      if String.eqb k' k then None :: m'
      else Some (k', v') :: delete m' k
  end.

(** The live entries, in iteration order. *)
Fixpoint entries (m : t) : list (string * V) :=
  match m with
  | [] => []
  | None :: m' => entries m'
  | Some e :: m' => e :: entries m'
  end.

Definition keys (m : t) : list string := map fst (entries m).
Definition values (m : t) : list V := map snd (entries m).

(** [for (const [key, v] of m) { if (p v) { ...; break; } }]: the first
    live entry whose value satisfies [p]. *)
Fixpoint find (p : V -> bool) (m : t) : option (string * V) :=
  match m with
  | [] => None
  | None :: m' => find p m'
  | Some (k, v) :: m' => if p v then Some (k, v) else find p m'
  end.

(** Number of live entries stored under key [k]. *)
Definition count (m : t) (k : string) : nat :=
  List.length (filter (String.eqb k) (keys m)).

(** Keys are unique: the invariant every [Map] satisfies. *)
Definition wf (m : t) : Prop := NoDup (keys m).
End Defs.
Arguments t : clear implicits.
End JSMap.

(** ** Channels (the [ws] objects) *)

(** A channel handle; two handles are the same object ([===]) iff the
    numbers agree. *)
Definition WS := nat.

Inductive ReadyState := CONNECTING | OPEN | CLOSING | CLOSED.

Definition isOPEN (s : ReadyState) : bool :=
  match s with OPEN => true | _ => false end.

Record Stats := { cpu : Z; memory : Z; storage : Z; temperature : Z }.

(** Frames the server writes, to devices and to administrators. *)
Inductive ServerMsg :=
| CONNECTED
| REGISTERED (who : string)
| ERROR (message : string)
| HEARTBEAT_ACK
| CONTENT_UPDATE (action : string)
| BLOCK_DEVICE (message : string)
| UNBLOCK_DEVICE
| DEVICE_ONLINE (deviceId device : string)
| DEVICE_OFFLINE (deviceId device : string)
| PLAYBACK_UPDATE (deviceId contentId campaignId : string) (duration : Z)
| DEVICE_STATUS_UPDATE (deviceId status : string) (stats : Stats)
    (deviceName : string)
| SCREENSHOT_READY (deviceId : string)
| DEVICE_STATUS_CHANGED (deviceId status : string)
| DEVICE_REGISTERED (device : string).

(** Frames received, after [JSON.parse] and the [switch] on [data.type].
    [Unparseable] is a frame on which [JSON.parse] throws, [Unknown] one
    whose type is none of the cases. *)
Inductive ClientMsg :=
| DEVICE_REGISTER (deviceId : string) (token : option string)
| ADMIN_REGISTER (userId : string) (token : option string)
| HEARTBEAT (deviceId : string)
| PLAYBACK_LOG (deviceId contentId campaignId : string) (duration : Z)
    (startTime endTime : Z)
| DEVICE_STATUS (deviceId status : string) (stats : option Stats)
| SCREENSHOT_RESULT (deviceId screenshot : string) (timestamp : option Z)
| Unknown (type : string)
| Unparseable.

(** ** The backing store (the [supabase] client) *)

Record DeviceRow := {
  id : string;
  name : string;
  tenant_id : option string;
  status : string;
  last_seen : option Z
}.

Record LogRow := { log_device_id : string; event_type : string; log_message : string }.

Record PlaybackRow := {
  pb_device_id : string; pb_content_id : string; pb_campaign_id : string;
  pb_duration : Z; pb_start_time : Z; pb_end_time : Z
}.

Record StatsRow := { st_device_id : string; st_stats : Stats; st_updated_at : Z }.

Record ScreenshotRow := { sc_device_id : string; sc_data : string; sc_created_at : Z }.

Record UserRow := { user_id : string; user_tenant_id : option string }.

Record DB := {
  devices : list DeviceRow;
  device_logs : list LogRow;
  playback_logs : list PlaybackRow;
  device_stats : list StatsRow;
  device_screenshots : list ScreenshotRow;
  users : list UserRow
}.

(** The requests the handlers await. *)
Inductive DbReq :=
| SelectDevice (device_id : string)
    (* from('devices').select(..).eq('id', id).single() *)
| UpdateDevice (device_id : string) (new_status : option string)
    (new_last_seen : option Z)
    (* from('devices').update({..}).eq('id', id) *)
| InsertDeviceLog (row : LogRow)
| InsertPlaybackLog (row : PlaybackRow)
| UpsertDeviceStats (row : StatsRow)
| InsertScreenshot (row : ScreenshotRow).

Definition update_row (new_status : option string) (new_last_seen : option Z)
    (r : DeviceRow) : DeviceRow :=
  {| id := id r; name := name r; tenant_id := tenant_id r;
     status := match new_status with Some s => s | None => status r end;
     last_seen := match new_last_seen with Some t => Some t | None => last_seen r end |}.

(** [.single()] answers with the row when exactly one row matches and with
    an error (no data) otherwise. *)
Definition single (rows : list DeviceRow) : option DeviceRow :=
  match rows with
  | [r] => Some r
  | _ => None
  end.

Definition with_devices (d : DB) (l : list DeviceRow) : DB :=
  {| devices := l; device_logs := device_logs d; playback_logs := playback_logs d;
     device_stats := device_stats d; device_screenshots := device_screenshots d;
     users := users d |}.

Definition db_exec (q : DbReq) (d : DB) : DB * option DeviceRow :=
  match q with
  | SelectDevice x =>
      (d, single (filter (fun r => String.eqb (id r) x) (devices d)))
  | UpdateDevice x s t =>
      (with_devices d
         (map (fun r => if String.eqb (id r) x then update_row s t r else r)
              (devices d)), None)
  | InsertDeviceLog row =>
      ({| devices := devices d; device_logs := device_logs d ++ [row];
          playback_logs := playback_logs d; device_stats := device_stats d;
          device_screenshots := device_screenshots d; users := users d |}, None)
  | InsertPlaybackLog row =>
      ({| devices := devices d; device_logs := device_logs d;
          playback_logs := playback_logs d ++ [row]; device_stats := device_stats d;
          device_screenshots := device_screenshots d; users := users d |}, None)
  | UpsertDeviceStats row =>
      ({| devices := devices d; device_logs := device_logs d;
          playback_logs := playback_logs d;
          device_stats :=
            filter (fun r => negb (String.eqb (st_device_id r) (st_device_id row)))
                   (device_stats d) ++ [row];
          device_screenshots := device_screenshots d; users := users d |}, None)
  | InsertScreenshot row =>
      ({| devices := devices d; device_logs := device_logs d;
          playback_logs := playback_logs d; device_stats := device_stats d;
          device_screenshots := device_screenshots d ++ [row]; users := users d |}, None)
  end.

(** ** Registry entries *)

(** The object stored by [handleDeviceRegister].  [device] is the row the
    registration read; the cleanup interval tests it for truthiness. *)
Record DeviceConn := {
  ws : WS;
  deviceId : string;
  lastSeen : Z;
  device : option DeviceRow
}.

(** The object stored by [handleAdminRegister]: no tenant is recorded. *)
Record AdminConn := {
  admin_ws : WS;
  userId : string;
  admin_lastSeen : Z
}.

(** Suspended handlers: what remains to run after an [await]. *)
Inductive Cont :=
| KRegSelect (w : WS) (deviceId : string)
| KRegUpdate (w : WS) (deviceId : string) (device : DeviceRow)
| KRegInsert (w : WS) (deviceId : string) (device : DeviceRow)
| KHbUpdate (w : WS)
| KPlInsert (deviceId contentId campaignId : string) (duration : Z)
| KPlSelect (deviceId contentId campaignId : string) (duration : Z)
| KDsUpsert (deviceId status : string) (stats : Stats)
| KDsSelect (deviceId status : string) (stats : Stats)
| KSsInsert (deviceId : string)
| KSsSelect (deviceId : string)
| KTickUpdate (now : Z) (i : nat) (deviceId : string) (connection : DeviceConn)
| KTickInsert (now : Z) (i : nat) (deviceId : string) (connection : DeviceConn).

(** ** The state of the process *)

Record World := {
  deviceConnections : JSMap.t DeviceConn;
  adminConnections : JSMap.t AdminConn;
  sockets : list (WS * ReadyState);
  sent : list (WS * ServerMsg);
      (* every frame written to a channel, oldest first *)
  published : list (ServerMsg * option string);
      (* history of the calls of broadcastToAdmins (message, tenantId),
         oldest first; nothing reads it, it only records the calls *)
  db : DB;
  pending : list (DbReq * Cont);
      (* requests sent to the backing store and not answered yet *)
  clock : Z
      (* what [new Date()] returns, in milliseconds *)
}.

Definition set_deviceConnections (m : JSMap.t DeviceConn) (w : World) : World :=
  {| deviceConnections := m; adminConnections := adminConnections w;
     sockets := sockets w; sent := sent w; published := published w;
     db := db w; pending := pending w; clock := clock w |}.

Definition set_adminConnections (m : JSMap.t AdminConn) (w : World) : World :=
  {| deviceConnections := deviceConnections w; adminConnections := m;
     sockets := sockets w; sent := sent w; published := published w;
     db := db w; pending := pending w; clock := clock w |}.

Definition set_sockets (l : list (WS * ReadyState)) (w : World) : World :=
  {| deviceConnections := deviceConnections w; adminConnections := adminConnections w;
     sockets := l; sent := sent w; published := published w;
     db := db w; pending := pending w; clock := clock w |}.

Definition set_sent (l : list (WS * ServerMsg)) (w : World) : World :=
  {| deviceConnections := deviceConnections w; adminConnections := adminConnections w;
     sockets := sockets w; sent := l; published := published w;
     db := db w; pending := pending w; clock := clock w |}.

Definition set_published (l : list (ServerMsg * option string)) (w : World) : World :=
  {| deviceConnections := deviceConnections w; adminConnections := adminConnections w;
     sockets := sockets w; sent := sent w; published := l;
     db := db w; pending := pending w; clock := clock w |}.

Definition set_db (d : DB) (w : World) : World :=
  {| deviceConnections := deviceConnections w; adminConnections := adminConnections w;
     sockets := sockets w; sent := sent w; published := published w;
     db := d; pending := pending w; clock := clock w |}.

Definition set_pending (l : list (DbReq * Cont)) (w : World) : World :=
  {| deviceConnections := deviceConnections w; adminConnections := adminConnections w;
     sockets := sockets w; sent := sent w; published := published w;
     db := db w; pending := l; clock := clock w |}.

Definition set_clock (t : Z) (w : World) : World :=
  {| deviceConnections := deviceConnections w; adminConnections := adminConnections w;
     sockets := sockets w; sent := sent w; published := published w;
     db := db w; pending := pending w; clock := t |}.

(** ** Statements: state and exceptions

    A synchronous stretch of JavaScript either completes with a value or
    throws; in both cases the changes made so far to the state stay. *)

Inductive Result (A : Type) :=
| Ok (a : A) (w : World)
| Throw (e : string) (w : World).
Arguments Ok {A} a w.
Arguments Throw {A} e w.

Definition M (A : Type) : Type := World -> Result A.

Definition ret {A} (a : A) : M A := fun w => Ok a w.

Definition bind {A B} (m : M A) (f : A -> M B) : M B :=
  fun w => match m w with
           | Ok a w' => f a w'
           | Throw e w' => Throw e w'
           end.

Definition throw {A} (e : string) : M A := fun w => Throw e w.

(** [try { m } catch (error) { console.error(..) }] *)
Definition try_ (m : M unit) : M unit :=
  fun w => match m w with
           | Ok a w' => Ok a w'
           | Throw _ w' => Ok tt w'
           end.

Definition modify (f : World -> World) : M unit := fun w => Ok tt (f w).
Definition gets {A} (f : World -> A) : M A := fun w => Ok (f w) w.

(** The state in which a statement leaves the process, thrown or not. *)
Definition run {A} (m : M A) (w : World) : World :=
  match m w with
  | Ok _ w' => w'
  | Throw _ w' => w'
  end.

Declare Scope js_scope.
Delimit Scope js_scope with js.
Notation "x <- m ;; k" := (bind m (fun x => k))
  (at level 61, m at next level, right associativity) : js_scope.
Notation "m ;; k" := (bind m (fun _ => k))
  (at level 61, right associativity) : js_scope.
Local Open Scope js_scope.

(** [new Date()] *)
Definition newDate : M Z := gets clock.

(** [await q]: the request leaves for the backing store and the rest of
    the handler, [k], waits for the answer. *)
Definition await (q : DbReq) (k : Cont) : M unit :=
  modify (fun w => set_pending (pending w ++ [(q, k)]) w).

(** ** The [ws] channel interface *)

Fixpoint lookup_socket (l : list (WS * ReadyState)) (s : WS) : ReadyState :=
  match l with
  | [] => CLOSED
  | (s', st) :: l' => if Nat.eqb s' s then st else lookup_socket l' s
  end.

Definition readyState (w : World) (s : WS) : ReadyState :=
  lookup_socket (sockets w) s.

(** [s.send(JSON.stringify(m))]: the frame is written when the channel is
    open; the call throws while the channel is still connecting and
    discards the frame once the channel is closing or closed. *)
Definition ws_send (s : WS) (m : ServerMsg) : M unit :=
  fun w => match readyState w s with
           | CONNECTING => Throw "WebSocket is not open: readyState 0 (CONNECTING)" w
           | OPEN => Ok tt (set_sent (sent w ++ [(s, m)]) w)
           | CLOSING | CLOSED => Ok tt w
           end.

(** ** broadcastToDevice and broadcastToAdmins *)

Definition broadcastToDevice (deviceId : string) (message : ServerMsg) : M bool :=
  connection <- gets (fun w => JSMap.get (deviceConnections w) deviceId) ;;
  match connection with
  | Some c =>
      st <- gets (fun w => readyState w (ws c)) ;;
      if isOPEN st then (ws_send (ws c) message ;; ret true) else ret false
  | None => ret false
  end.

(** The body of [for (const connection of adminConnections.values())]. *)
Fixpoint broadcast_loop (cs : list AdminConn) (message : ServerMsg) : M unit :=
  match cs with
  | [] => ret tt
  | connection :: cs' =>
      st <- gets (fun w => readyState w (admin_ws connection)) ;;
      (if isOPEN st
       then (* In a real implementation, check if admin belongs to tenant *)
            ws_send (admin_ws connection) message
       else ret tt) ;;
      broadcast_loop cs' message
  end.

Definition broadcastToAdmins (message : ServerMsg) (tenantId : option string) : M unit :=
  modify (fun w => set_published (published w ++ [(message, tenantId)]) w) ;;
  cs <- gets (fun w => JSMap.values (adminConnections w)) ;;
  broadcast_loop cs message.

(** ** The message handlers *)

Definition put_device (k : string) (c : DeviceConn) : M unit :=
  modify (fun w => set_deviceConnections (JSMap.set (deviceConnections w) k c) w).

Definition delete_device (k : string) : M unit :=
  modify (fun w => set_deviceConnections (JSMap.delete (deviceConnections w) k) w).

Definition put_admin (k : string) (c : AdminConn) : M unit :=
  modify (fun w => set_adminConnections (JSMap.set (adminConnections w) k c) w).

Definition delete_admin (k : string) : M unit :=
  modify (fun w => set_adminConnections (JSMap.delete (adminConnections w) k) w).

Definition with_lastSeen (t : Z) (c : DeviceConn) : DeviceConn :=
  {| ws := ws c; deviceId := deviceId c; lastSeen := t; device := device c |}.

(** handleDeviceRegister, up to its first [await]. *)
Definition handleDeviceRegister (s : WS) (deviceId : string) (token : option string)
    : M unit :=
  try_ (await (SelectDevice deviceId) (KRegSelect s deviceId)).

(** handleAdminRegister has no [await]. *)
Definition handleAdminRegister (s : WS) (userId : string) (token : option string)
    : M unit :=
  try_ (now <- newDate ;;
        put_admin userId {| admin_ws := s; userId := userId; admin_lastSeen := now |} ;;
        ws_send s (REGISTERED userId)).

(** handleHeartbeat, up to its [await]. *)
Definition handleHeartbeat (s : WS) (deviceId : string) : M unit :=
  try_ (connection <- gets (fun w => JSMap.get (deviceConnections w) deviceId) ;;
        match connection with
        | Some c =>
            now <- newDate ;;
            put_device deviceId (with_lastSeen now c) ;;
            now' <- newDate ;;
            await (UpdateDevice deviceId None (Some now')) (KHbUpdate s)
        | None => ret tt
        end).

Definition handlePlaybackLog (deviceId contentId campaignId : string)
    (duration startTime endTime : Z) : M unit :=
  try_ (await (InsertPlaybackLog
                 {| pb_device_id := deviceId; pb_content_id := contentId;
                    pb_campaign_id := campaignId; pb_duration := duration;
                    pb_start_time := startTime; pb_end_time := endTime |})
              (KPlInsert deviceId contentId campaignId duration)).

(** [stats.cpu] throws when the frame carries no [stats]. *)
Definition handleDeviceStatus (deviceId status : string) (stats : option Stats)
    : M unit :=
  try_ (match stats with
        | None => throw "TypeError: Cannot read properties of undefined"
        | Some st =>
            now <- newDate ;;
            await (UpsertDeviceStats
                     {| st_device_id := deviceId; st_stats := st; st_updated_at := now |})
                  (KDsUpsert deviceId status st)
        end).

(** [timestamp || new Date().toISOString()] *)
Definition or_now (timestamp : option Z) (now : Z) : Z :=
  match timestamp with
  | Some t => if Z.eqb t 0 then now else t
  | None => now
  end.

Definition handleScreenshotResult (deviceId screenshot : string)
    (timestamp : option Z) : M unit :=
  try_ (now <- newDate ;;
        await (InsertScreenshot
                 {| sc_device_id := deviceId; sc_data := screenshot;
                    sc_created_at := or_now timestamp now |})
              (KSsInsert deviceId)).

(** [ws.on('message', ..)] *)
Definition onMessage (s : WS) (data : ClientMsg) : M unit :=
  try_ (match data with
        | Unparseable => throw "SyntaxError"
        | DEVICE_REGISTER deviceId token => handleDeviceRegister s deviceId token
        | ADMIN_REGISTER userId token => handleAdminRegister s userId token
        | HEARTBEAT deviceId => handleHeartbeat s deviceId
        | PLAYBACK_LOG deviceId contentId campaignId duration startTime endTime =>
            handlePlaybackLog deviceId contentId campaignId duration startTime endTime
        | DEVICE_STATUS deviceId status stats => handleDeviceStatus deviceId status stats
        | SCREENSHOT_RESULT deviceId screenshot timestamp =>
            handleScreenshotResult deviceId screenshot timestamp
        | Unknown _ => ret tt
        end).

(** [ws.on('close', ..)]: each loop removes the first entry whose channel
    is the closing one, and stops. *)
Definition onClose (s : WS) : M unit :=
  found <- gets (fun w => JSMap.find (fun c => Nat.eqb (ws c) s) (deviceConnections w)) ;;
  match found with
  | Some (key, _) => delete_device key
  | None => ret tt
  end ;;
  found' <- gets (fun w => JSMap.find (fun c => Nat.eqb (admin_ws c) s) (adminConnections w)) ;;
  match found' with
  | Some (key, _) => delete_admin key
  | None => ret tt
  end.

(** ** The offline cleanup *)

Definition timeout : Z := 5 * 60 * 1000.

(** [now - connection.lastSeen > timeout] *)
Definition timed_out (now : Z) (c : DeviceConn) : bool :=
  (now - lastSeen c >? timeout)%Z.

(** The iterator of [for (const [deviceId, connection] of deviceConnections)]
    advancing from slot [i] to the next entry that has timed out. *)
Fixpoint scan (now : Z) (slots : JSMap.t DeviceConn) (i : nat)
    : option (nat * string * DeviceConn) :=
  match slots with
  | [] => None
  | None :: rest => scan now rest (S i)
  | Some (k, c) :: rest =>
      if timed_out now c then Some (i, k, c) else scan now rest (S i)
  end.

Definition tick_loop (now : Z) (i : nat) : M unit :=
  slots <- gets (fun w => skipn i (deviceConnections w)) ;;
  match scan now slots i with
  | None => ret tt
  | Some (j, deviceId, connection) =>
      await (UpdateDevice deviceId (Some "offline") None)
            (KTickUpdate now j deviceId connection)
  end.

(** The callback of the cleanup [setInterval], up to its first [await]. *)
Definition cleanup : M unit :=
  now <- newDate ;;
  tick_loop now 0.

(** ** Resuming after an [await] *)

Definition resume (k : Cont) (reply : option DeviceRow) : M unit :=
  match k with
  | KRegSelect s deviceId =>
      try_ (match reply with
            | None => ws_send s (ERROR "Device not found")
            | Some device =>
                now <- newDate ;;
                put_device deviceId
                  {| ws := s; deviceId := deviceId; lastSeen := now;
                     device := Some device |} ;;
                now' <- newDate ;;
                await (UpdateDevice deviceId (Some "online") (Some now'))
                      (KRegUpdate s deviceId device)
            end)
  | KRegUpdate s deviceId device =>
      try_ (await (InsertDeviceLog
                     {| log_device_id := deviceId; event_type := "online";
                        log_message := "Device connected via WebSocket" |})
                  (KRegInsert s deviceId device))
  | KRegInsert s deviceId device =>
      try_ (ws_send s (REGISTERED deviceId) ;;
            broadcastToAdmins (DEVICE_ONLINE deviceId (name device)) (tenant_id device))
  | KHbUpdate s =>
      try_ (ws_send s HEARTBEAT_ACK)
  | KPlInsert deviceId contentId campaignId duration =>
      try_ (await (SelectDevice deviceId)
                  (KPlSelect deviceId contentId campaignId duration))
  | KPlSelect deviceId contentId campaignId duration =>
      try_ (match reply with
            | Some device =>
                broadcastToAdmins (PLAYBACK_UPDATE deviceId contentId campaignId duration)
                                  (tenant_id device)
            | None => ret tt
            end)
  | KDsUpsert deviceId status stats =>
      try_ (await (SelectDevice deviceId) (KDsSelect deviceId status stats))
  | KDsSelect deviceId status stats =>
      try_ (match reply with
            | Some device =>
                broadcastToAdmins
                  (DEVICE_STATUS_UPDATE deviceId status stats (name device))
                  (tenant_id device)
            | None => ret tt
            end)
  | KSsInsert deviceId =>
      try_ (await (SelectDevice deviceId) (KSsSelect deviceId))
  | KSsSelect deviceId =>
      try_ (match reply with
            | Some device => broadcastToAdmins (SCREENSHOT_READY deviceId) (tenant_id device)
            | None => ret tt
            end)
  | KTickUpdate now i deviceId connection =>
      await (InsertDeviceLog
               {| log_device_id := deviceId; event_type := "offline";
                  log_message := "Device disconnected (timeout)" |})
            (KTickInsert now i deviceId connection)
  | KTickInsert now i deviceId connection =>
      delete_device deviceId ;;
      match device connection with
      | Some row => broadcastToAdmins (DEVICE_OFFLINE deviceId (name row)) (tenant_id row)
      | None => ret tt
      end ;;
      tick_loop now (S i)
  end.

(** ** Events and executions *)

Inductive Event :=
| Connection (s : WS)                      (* wss.on('connection') *)
| Message (s : WS) (data : ClientMsg)      (* ws.on('message') *)
| Close (s : WS)                           (* ws.on('close') *)
| Tick                                     (* the cleanup interval fires *)
| Reply (n : nat)                          (* the n-th outstanding request is answered *)
| Elapse (dt : Z)                          (* time passes *)
| Transport (s : WS) (st : ReadyState)     (* the transport changes a channel's state *)
| Dispatch (deviceId : string) (message : ServerMsg).
                                           (* the control layer calls broadcastToDevice *)

Fixpoint put_socket (l : list (WS * ReadyState)) (s : WS) (st : ReadyState)
    : list (WS * ReadyState) :=
  match l with
  | [] => [(s, st)]
  | (s', st') :: l' =>
      if Nat.eqb s' s then (s, st) :: l' else (s', st') :: put_socket l' s st
  end.

Definition set_readyState (s : WS) (st : ReadyState) : M unit :=
  modify (fun w => set_sockets (put_socket (sockets w) s st) w).

Fixpoint remove_nth {A} (n : nat) (l : list A) : list A :=
  match l, n with
  | [], _ => []
  | _ :: l', O => l'
  | x :: l', S n' => x :: remove_nth n' l'
  end.

(** The backing store performs the request and the handler that awaited it
    runs to its next [await] or to its end. *)
Definition reply (n : nat) : M unit :=
  fun w =>
    match nth_error (pending w) n with
    | None => Ok tt w
    | Some (q, k) =>
        let (d, r) := db_exec q (db w) in
        resume k r (set_db d (set_pending (remove_nth n (pending w)) w))
    end.

Definition handle (e : Event) : M unit :=
  match e with
  | Connection s => set_readyState s OPEN ;; ws_send s CONNECTED
  | Message s data => onMessage s data
  | Close s => set_readyState s CLOSED ;; onClose s
  | Tick => cleanup
  | Reply n => reply n
  | Elapse dt => modify (fun w => set_clock (clock w + Z.max 0 dt) w)
  | Transport s st => set_readyState s st
  | Dispatch deviceId message => broadcastToDevice deviceId message ;; ret tt
  end.

Definition step (e : Event) (w : World) : World := run (handle e) w.

Definition exec (es : list Event) (w : World) : World :=
  fold_left (fun w e => step e w) es w.

Definition empty_db : DB :=
  {| devices := []; device_logs := []; playback_logs := []; device_stats := [];
     device_screenshots := []; users := [] |}.

(** The process at start-up, over a given backing store. *)
Definition boot (d : DB) : World :=
  {| deviceConnections := JSMap.empty; adminConnections := JSMap.empty;
     sockets := []; sent := []; published := []; db := d; pending := [];
     clock := 0 |}.

Definition reachable (w : World) : Prop :=
  exists d es, w = exec es (boot d).

(** ** The simplified variant of [backend/server.js]

    There the registry maps a device id to the channel itself and events
    go to every client of the WebSocket server.  Only the registry and the
    channels are modelled. *)

Module Simplified.

Record State := {
  deviceConnections : JSMap.t WS;
  clients : list (WS * ReadyState);        (* wss.clients *)
  sent : list (WS * ServerMsg)
}.

Definition readyState (st : State) (s : WS) : ReadyState :=
  lookup_socket (clients st) s.

(** [s.send(..)] on a channel just tested to be open. *)
Definition write (s : WS) (m : ServerMsg) (st : State) : State :=
  {| deviceConnections := deviceConnections st; clients := clients st;
     sent := sent st ++ [(s, m)] |}.

Definition set_registry (m : JSMap.t WS) (st : State) : State :=
  {| deviceConnections := m; clients := clients st; sent := sent st |}.

(** [wss.clients.forEach(client => { if (client.readyState === client.OPEN) .. })] *)
Definition broadcastToAdmin (message : ServerMsg) (st : State) : State :=
  fold_left (fun acc c => if isOPEN (snd c) then write (fst c) message acc else acc)
            (clients st) st.

Definition sendToDevice (deviceId : string) (message : ServerMsg) (st : State)
    : bool * State :=
  match JSMap.get (deviceConnections st) deviceId with
  | Some connection =>
      if isOPEN (readyState st connection)
      then (true, write connection message st)
      else (false, st)
  | None => (false, st)
  end.

(** The DEVICE_REGISTER branch of the message handler, up to its [await] *)
Definition onRegister (s : WS) (deviceId : string) (st : State) : State :=
  set_registry (JSMap.set (deviceConnections st) deviceId s) st.

(** and after it. *)
Definition onRegistered (deviceId : string) (st : State) : State :=
  broadcastToAdmin (DEVICE_STATUS_CHANGED deviceId "online") st.

(** When the close event of a channel fires the channel is closed. *)
Definition closed (s : WS) (st : State) : State :=
  {| deviceConnections := deviceConnections st;
     clients := map (fun c => if Nat.eqb (fst c) s then (fst c, CLOSED) else c)
                    (clients st);
     sent := sent st |}.

(** [ws.on('close', ..)] *)
Definition onClose (s : WS) (st : State) : State :=
  let st := closed s st in
  match JSMap.find (fun connection => Nat.eqb connection s) (deviceConnections st) with
  | Some (deviceId, _) =>
      broadcastToAdmin (DEVICE_STATUS_CHANGED deviceId "offline")
        (set_registry (JSMap.delete (deviceConnections st) deviceId) st)
  | None => st
  end.

End Simplified.


(** ** Vocabulary of the statements *)

(** The frames a call of broadcastToAdmins writes in state [w]: one per
    administrator whose channel is open, in the order of the registry. *)
Definition deliveries (w : World) (message : ServerMsg) : list (WS * ServerMsg) :=
  map (fun c => (admin_ws c, message))
      (filter (fun c => isOPEN (readyState w (admin_ws c)))
              (JSMap.values (adminConnections w))).

(** The tenant of an administrator, as the [users] table has it. *)
Fixpoint tenant_of_user (l : list UserRow) (u : string) : option string :=
  match l with
  | [] => None
  | r :: l' => if String.eqb (user_id r) u then user_tenant_id r else tenant_of_user l' u
  end.

(** The registry operations of the connection handlers: a registration
    whose lookup found [row] (it reaches [deviceConnections.set]) and the
    close of a channel. *)
Inductive RegistryOp :=
| OpRegister (s : WS) (deviceId : string) (row : DeviceRow)
| OpClose (s : WS).

Definition do_op (op : RegistryOp) (w : World) : World :=
  match op with
  | OpRegister s d row => run (resume (KRegSelect s d) (Some row)) w
  | OpClose s => step (Close s) w
  end.

Definition do_ops (ops : list RegistryOp) (w : World) : World :=
  fold_left (fun w op => do_op op w) ops w.

(** The entry made by the most recent registration of [d] among [ops],
    [acc] when there is none. *)
Fixpoint latest (d : string) (now : Z) (ops : list RegistryOp)
    (acc : option DeviceConn) : option DeviceConn :=
  match ops with
  | [] => acc
  | OpRegister s d' row :: ops' =>
      latest d now ops'
        (if String.eqb d' d
         then Some {| ws := s; deviceId := d; lastSeen := now; device := Some row |}
         else acc)
  | OpClose _ :: ops' => latest d now ops' acc
  end.

(** The registry after the loop of a close handler: the first entry whose
    channel, read by [chan], is the closing one is deleted. *)
Definition close_in {V} (chan : V -> WS) (s : WS) (m : JSMap.t V) : JSMap.t V :=
  match JSMap.find (fun c => Nat.eqb (chan c) s) m with
  | Some (key, _) => JSMap.delete m key
  | None => m
  end.

(** The effect of a registry operation on [deviceConnections] alone. *)
Definition registry_op (now : Z) (op : RegistryOp) (m : JSMap.t DeviceConn)
    : JSMap.t DeviceConn :=
  match op with
  | OpRegister s d row =>
      JSMap.set m d {| ws := s; deviceId := d; lastSeen := now; device := Some row |}
  | OpClose s => close_in ws s m
  end.

(** Events that are the transport's own: a channel opening, closing or
    changing state. *)
Definition transport_event (e : Event) : bool :=
  match e with
  | Connection _ | Close _ | Transport _ _ => true
  | _ => false
  end.

(** The telemetry kinds. *)
Definition telemetry (data : ClientMsg) : bool :=
  match data with
  | PLAYBACK_LOG _ _ _ _ _ _ | DEVICE_STATUS _ _ _ | SCREENSHOT_RESULT _ _ _ => true
  | _ => false
  end.

Definition telemetry_cont (k : Cont) : bool :=
  match k with
  | KPlInsert _ _ _ _ | KPlSelect _ _ _ _ | KDsUpsert _ _ _ | KDsSelect _ _ _
  | KSsInsert _ | KSsSelect _ => true
  | _ => false
  end.

(** A statement respects a relation between states when the state it
    leaves, thrown or not, is related to the one it starts from. *)
Definition respects (R : World -> World -> Prop) {A} (m : M A) : Prop :=
  forall w, match m w with
            | Ok _ w' => R w w'
            | Throw _ w' => R w w'
            end.

Definition keeps_wf (w w' : World) : Prop :=
  (JSMap.wf (deviceConnections w) -> JSMap.wf (deviceConnections w')) /\
  (JSMap.wf (adminConnections w) -> JSMap.wf (adminConnections w')).
Definition same_sockets (w w' : World) : Prop := sockets w' = sockets w.
Definition same_devices (w w' : World) : Prop :=
  deviceConnections w' = deviceConnections w.
Definition grows_published (w w' : World) : Prop :=
  exists l, published w' = (published w ++ l)%list.

(** ** Scenarios *)

Local Open Scope Z_scope.

Definition lobby : DeviceRow :=
  {| id := "d1"; name := "Lobby"; tenant_id := Some "A"; status := "offline";
     last_seen := None |}.

(** One device of tenant A; an administrator of tenant A and one of
    tenant B. *)
Definition store : DB :=
  {| devices := [lobby]; device_logs := []; playback_logs := [];
     device_stats := []; device_screenshots := [];
     users := [ {| user_id := "uA"; user_tenant_id := Some "A" |};
                {| user_id := "uB"; user_tenant_id := Some "B" |} ] |}.

(** The device registers on channel 2; every request is answered before
    the next event. *)
Definition device_online : list Event :=
  [Connection 2%nat; Message 2%nat (DEVICE_REGISTER "d1" None);
   Reply 0; Reply 0; Reply 0].

(** Administrators of both tenants listen, then the device of tenant A
    registers and reports a playback. *)
Definition cross_tenant : list Event :=
  [Connection 1%nat; Message 1%nat (ADMIN_REGISTER "uA" None);
   Connection 3%nat; Message 3%nat (ADMIN_REGISTER "uB" None)]
  ++ device_online ++
  [Message 2%nat (PLAYBACK_LOG "d1" "c1" "g1" 10 0 10); Reply 0; Reply 0].

(** The device is registered and its channel starts closing. *)
Definition closing_device : list Event :=
  device_online ++ [Transport 2%nat CLOSING].

(** The device registers on channel 2 and, without closing it, registers
    again on channel 3. *)
Definition double_registration : list Event :=
  device_online ++
  [Connection 3%nat; Message 3%nat (DEVICE_REGISTER "d1" None);
   Reply 0; Reply 0; Reply 0].

(** The device registers and, a second later, reports a playback. *)
Definition playback_after_a_second : list Event :=
  device_online ++
  [Elapse 1000; Message 2%nat (PLAYBACK_LOG "d1" "c1" "g1" 10 0 10);
   Reply 0; Reply 0].

(** Two administrators listen; the channel of the first starts closing
    before its close event is processed. *)
Definition one_observer_closing : list Event :=
  [Connection 1%nat; Message 1%nat (ADMIN_REGISTER "uA" None);
   Connection 3%nat; Message 3%nat (ADMIN_REGISTER "uB" None);
   Transport 1%nat CLOSING].

(** An administrator listens; the device sends DEVICE_REGISTER and, right
    behind it, PLAYBACK_LOG; the backing store answers the requests in the
    order it received them. *)
Definition telemetry_behind_register : list Event :=
  [Connection 1%nat; Message 1%nat (ADMIN_REGISTER "uA" None);
   Connection 2%nat;
   Message 2%nat (DEVICE_REGISTER "d1" None);
   Message 2%nat (PLAYBACK_LOG "d1" "c1" "g1" 10 0 10);
   Reply 0; Reply 0; Reply 0; Reply 0; Reply 0].

(** The device registered on channel 2 falls silent for more than five
    minutes; the cleanup selects its entry and awaits the backing store;
    meanwhile the device reconnects on channel 3 and registers.  The
    backing store answers in the order of the requests.  The last answer
    still outstanding is the one the cleanup waits for before it deletes. *)
Definition reconnect_during_cleanup : list Event :=
  [Connection 1%nat; Message 1%nat (ADMIN_REGISTER "uA" None)]
  ++ device_online ++
  [Elapse 300001; Tick;
   Connection 3%nat; Message 3%nat (DEVICE_REGISTER "d1" None);
   Reply 0; Reply 0].

(** The simplified variant with two open channels and nothing registered. *)
Definition two_clients : Simplified.State :=
  {| Simplified.deviceConnections := JSMap.empty;
     Simplified.clients := [(2%nat, OPEN); (3%nat, OPEN)];
     Simplified.sent := [] |}.

Local Close Scope Z_scope.

(** ** The cleanup, one entry at a time *)

Definition offline_log (k : string) : LogRow :=
  {| log_device_id := k; event_type := "offline";
     log_message := "Device disconnected (timeout)" |}.

(** What the cleanup does for one entry it found timed out, when the two
    requests it awaits are answered at once: status update, log row,
    [deviceConnections.delete], broadcast. *)
Definition evict (e : string * DeviceConn) (w : World) : World :=
  let d1 := fst (db_exec (UpdateDevice (fst e) (Some "offline") None) (db w)) in
  let d2 := fst (db_exec (InsertDeviceLog (offline_log (fst e))) d1) in
  run (delete_device (fst e) ;;
       match device (snd e) with
       | Some row => broadcastToAdmins (DEVICE_OFFLINE (fst e) (name row)) (tenant_id row)
       | None => ret tt
       end)
      (set_db d2 w).

(** The entries that have timed out at [now], in registry order. *)
Definition stale (now : Z) (m : JSMap.t DeviceConn) : list (string * DeviceConn) :=
  filter (fun e => timed_out now (snd e)) (JSMap.entries m).

(** The broadcast an eviction makes. *)
Definition offline_event (e : string * DeviceConn) : list (ServerMsg * option string) :=
  match device (snd e) with
  | Some row => [(DEVICE_OFFLINE (fst e) (name row), tenant_id row)]
  | None => []
  end.

(** The row of a device after the cleanup has evicted the ids [ks]. *)
Definition mark_offline (ks : list string) (r : DeviceRow) : DeviceRow :=
  if existsb (String.eqb (id r)) ks then update_row (Some "offline") None r else r.

(** [l] without its first element that satisfies [p]. *)
Fixpoint remove_first {A} (p : A -> bool) (l : list A) : list A :=
  match l with
  | [] => []
  | x :: l' => if p x then l' else x :: remove_first p l'
  end.

Definition online_log (k : string) : LogRow :=
  {| log_device_id := k; event_type := "online";
     log_message := "Device connected via WebSocket" |}.

(** The rows of [devices] after [update(..).eq('id', k)]. *)
Definition update_rows (k : string) (new_status : option string)
    (new_last_seen : option Z) (rows : list DeviceRow) : list DeviceRow :=
  map (fun r => if String.eqb (id r) k then update_row new_status new_last_seen r else r)
      rows.

(** The ways in which one event changes [deviceConnections]: not at all,
    by storing the entry of a registration, by refreshing the lastSeen of
    an entry, or by deleting a key. *)
Inductive registry_move (w : World) : JSMap.t DeviceConn -> Prop :=
| move_none : registry_move w (deviceConnections w)
| move_register (s : WS) (k : string) (row : DeviceRow) :
    registry_move w
      (JSMap.set (deviceConnections w) k
         {| ws := s; deviceId := k; lastSeen := clock w; device := Some row |})
| move_heartbeat (k : string) (c : DeviceConn) :
    JSMap.get (deviceConnections w) k = Some c ->
    registry_move w (JSMap.set (deviceConnections w) k (with_lastSeen (clock w) c))
| move_delete (k : string) :
    registry_move w (JSMap.delete (deviceConnections w) k).

(** Same registry of devices and same clock. *)
Definition same_devices_clock (w w' : World) : Prop :=
  deviceConnections w' = deviceConnections w /\ clock w' = clock w.

(** What every entry of a reachable registry satisfies. *)
Definition entry_ok (now : Z) (k : string) (c : DeviceConn) : Prop :=
  deviceId c = k /\ (exists row, device c = Some row) /\ (lastSeen c <= now)%Z.

Definition registry_ok (w : World) : Prop :=
  JSMap.wf (deviceConnections w) /\
  forall k c, JSMap.get (deviceConnections w) k = Some c -> entry_ok (clock w) k c.

(** ** The HTTP side of [backend/server.js]: toggling the block of a device

    The route reads the status of the device, writes the opposite status,
    sends the command to the device if it is connected and tells every
    client.  The two requests to the backing store are taken as answered
    one after the other with nothing in between; [update_error] is the
    error, if any, with which the backing store answers the update. *)

Module Routes.

Inductive Response :=
| NotFound                      (* 404 Dispositivo nao encontrado *)
| BadRequest (message : string) (* 400 with the store's message *)
| Toggled (status : string).    (* 200 with the new status *)

(** [device.status === 'blocked' ? 'online' : 'blocked'] *)
Definition newStatus (status : string) : string :=
  if String.eqb status "blocked" then "online" else "blocked".

(** The command sent to the device for a new status. *)
Definition command (newStatus : string) : ServerMsg :=
  if String.eqb newStatus "blocked"
  then BLOCK_DEVICE "Dispositivo bloqueado por falta de pagamento"
  else UNBLOCK_DEVICE.

Definition toggleBlock (device_id : string) (update_error : option string)
    (rows : list DeviceRow) (st : Simplified.State)
    : Response * list DeviceRow * Simplified.State :=
  match single (filter (fun r => String.eqb (id r) device_id) rows) with
  | None => (NotFound, rows, st)
  | Some device =>
      let ns := newStatus (status device) in
      match update_error with
      | Some message => (BadRequest message, rows, st)
      | None =>
          let rows' := update_rows device_id (Some ns) None rows in
          let (success, st1) := Simplified.sendToDevice device_id (command ns) st in
          (Toggled ns, rows',
           Simplified.broadcastToAdmin (DEVICE_STATUS_CHANGED device_id ns) st1)
      end
  end.

End Routes.

(** ** The HTTP middleware *)

Module Http.

(** A row of [users] as the middleware reads it.  [roles] is the array
    when the row has one ([Array.isArray]); [role] the single role, if
    any. *)
Record User := {
  user_id : string;
  is_active : bool;
  roles : option (list string);
  role : option string
}.

(** What a middleware does with a request: pass it on ([next()]) or answer
    with a status and an error text. *)
Inductive Outcome :=
| Next
| Status (code : nat) (error : string).

(** [Array.isArray(req.user.roles) ? req.user.roles : [req.user.role]];
    an absent [role] gives an array that contains no string. *)
Definition userRoles (u : User) : list string :=
  match roles u with
  | Some l => l
  | None => match role u with Some r => [r] | None => [] end
  end.

(** [requireRole(roles)] applied to a request whose [req.user] is [user]. *)
Definition requireRole (required : list string) (user : option User) : Outcome :=
  match user with
  | None => Status 401 "Authentication required"
  | Some u =>
      if existsb (fun r => existsb (String.eqb r) (userRoles u)) required
      then Next
      else Status 403 "Insufficient permissions"
  end.

Record PermissionRow := { perm_user_id : string; permission : string }.

(** [requirePermission(permission)]: [table] is what the backing store
    holds, [None] when the query fails; reading [req.user.id] throws when
    there is no user, which the handler catches. *)
Definition requirePermission (wanted : string) (user : option User)
    (table : option (list PermissionRow)) : Outcome :=
  match user with
  | None => Status 500 "Internal server error"
  | Some u =>
      match table with
      | None => Status 500 "Error checking permissions"
      | Some rows =>
          let permissions :=
            filter (fun p => String.eqb (perm_user_id p) (user_id u)) rows in
          if existsb (fun p => String.eqb (permission p) wanted) permissions
          then Next
          else Status 403 "Permission denied"
      end
  end.

(** [.single()] on [users]. *)
Definition single_user (rows : list User) : option User :=
  match rows with
  | [u] => Some u
  | _ => None
  end.

(** [authMiddleware]: [authorization] is the header, [verify] what
    [jwt.verify] makes of a token (the user id of the payload, [None] when
    it throws), [users] the table.  The result is the outcome and the user
    attached to the request. *)
Definition authMiddleware (verify : string -> option string) (users : list User)
    (authorization : option string) : Outcome * option User :=
  match authorization with
  | None => (Status 401 "Access token required", None)
  | Some authHeader =>
      if negb (String.prefix "Bearer " authHeader)
      then (Status 401 "Access token required", None)
      else
        let token := String.substring 7 (String.length authHeader - 7) authHeader in
        match verify token with
        | None => (Status 401 "Invalid token", None)
        | Some userId =>
            match single_user (filter (fun u => String.eqb (user_id u) userId) users) with
            | None => (Status 401 "Invalid token", None)
            | Some user =>
                if is_active user
                then (Next, Some user)
                else (Status 401 "Account deactivated", None)
            end
        end
  end.

End Http.

(** ** Which event caused what

    The events are numbered in the order in which they are processed.
    An outstanding request is owned by the event that started the handler
    which awaits it; a broadcast is caused by the event that started the
    handler which made it.  [tstep] runs [step] and keeps these numbers
    beside the state: a frame, or the firing of the cleanup, owns what it
    requests, and the request answered by [Reply n] passes its owner on to
    what its handler requests or publishes when it resumes. *)

Record Traced := {
  world : World;
  owners : list nat;
      (* for each entry of pending, the event that owns it *)
  causes : list (nat * nat);
      (* for each entry of published, the event that caused it and the
         event during whose processing it was published *)
  next : nat
      (* the number of the event processed next *)
}.

Definition kept {A} (e : Event) (l : list A) : list A :=
  match e with
  | Reply n => remove_nth n l
  | _ => l
  end.

Definition owner_of (e : Event) (t : Traced) : nat :=
  match e with
  | Reply n => nth n (owners t) (next t)
  | _ => next t
  end.

Definition tstep (e : Event) (t : Traced) : Traced :=
  let w' := step e (world t) in
  let o := owner_of e t in
  {| world := w';
     owners := kept e (owners t)
               ++ repeat o (List.length (pending w') - List.length (kept e (owners t)));
     causes := causes t
               ++ repeat (o, next t)
                         (List.length (published w') - List.length (published (world t)));
     next := S (next t) |}.

Definition texec (es : list Event) (t : Traced) : Traced :=
  fold_left (fun t e => tstep e t) es t.

Definition start (d : DB) : Traced :=
  {| world := boot d; owners := []; causes := []; next := 0 |}.




(** * Facts *)

Local Open Scope list_scope.

(** ** The map operations *)

Section JSMapFacts.
Context {V : Type}.
Implicit Types (m : JSMap.t V) (k : string) (v : V).

Lemma jsmap_get_set_eq m k v : JSMap.get (JSMap.set m k v) k = Some v.
Proof.
  induction m as [|[[k' v']|] m IH]; simpl.
  - now rewrite String.eqb_refl.
  - destruct (String.eqb k' k) eqn:E; simpl.
    + now rewrite String.eqb_refl.
    + now rewrite E.
  - exact IH.
Qed.

Lemma jsmap_get_set_ne m k k' v :
  k <> k' -> JSMap.get (JSMap.set m k v) k' = JSMap.get m k'.
Proof.
  intros Hne. induction m as [|[[k0 v0]|] m IH]; simpl.
  - apply String.eqb_neq in Hne. now rewrite Hne.
  - destruct (String.eqb k0 k) eqn:E; simpl.
    + apply String.eqb_eq in E. subst k0.
      apply String.eqb_neq in Hne. now rewrite Hne.
    + now rewrite IH.
  - exact IH.
Qed.

Lemma jsmap_get_delete_ne m k k' :
  k <> k' -> JSMap.get (JSMap.delete m k) k' = JSMap.get m k'.
Proof.
  intros Hne. induction m as [|[[k0 v0]|] m IH]; simpl; auto.
  destruct (String.eqb k0 k) eqn:E; simpl.
  - apply String.eqb_eq in E. subst k0.
    apply String.eqb_neq in Hne. now rewrite Hne.
  - now rewrite IH.
Qed.

Lemma jsmap_get_in_keys m k v : JSMap.get m k = Some v -> In k (JSMap.keys m).
Proof.
  unfold JSMap.keys.
  induction m as [|[[k0 v0]|] m IH]; simpl; intros H; try discriminate; auto.
  destruct (String.eqb k0 k) eqn:E.
  - apply String.eqb_eq in E. now left.
  - right. auto.
Qed.

Lemma jsmap_get_none_keys m k : JSMap.get m k = None -> ~ In k (JSMap.keys m).
Proof.
  unfold JSMap.keys.
  induction m as [|[[k0 v0]|] m IH]; simpl; intros H; auto.
  destruct (String.eqb k0 k) eqn:E; try discriminate.
  apply String.eqb_neq in E. intros [H1|H1]; [congruence|]. now apply IH.
Qed.

Lemma jsmap_keys_get m k : In k (JSMap.keys m) -> exists v, JSMap.get m k = Some v.
Proof.
  intros Hin. destruct (JSMap.get m k) eqn:E; eauto.
  now apply jsmap_get_none_keys in E.
Qed.

Lemma jsmap_keys_delete_subset m k x :
  In x (JSMap.keys (JSMap.delete m k)) -> In x (JSMap.keys m).
Proof.
  unfold JSMap.keys.
  induction m as [|[[k0 v0]|] m IH]; simpl; auto.
  destruct (String.eqb k0 k); simpl; intuition.
Qed.

Lemma jsmap_wf_delete m k : JSMap.wf m -> JSMap.wf (JSMap.delete m k).
Proof.
  unfold JSMap.wf, JSMap.keys.
  induction m as [|[[k0 v0]|] m IH]; simpl; auto.
  intros Hnd. inversion Hnd as [|x l Hx Hl]; subst.
  destruct (String.eqb k0 k); simpl; auto.
  constructor; auto.
  intros Hin. apply Hx. now apply (jsmap_keys_delete_subset m k).
Qed.

Lemma jsmap_keys_set_subset m k v x :
  In x (JSMap.keys (JSMap.set m k v)) -> x = k \/ In x (JSMap.keys m).
Proof.
  unfold JSMap.keys.
  induction m as [|[[k0 v0]|] m IH]; simpl.
  - intuition.
  - destruct (String.eqb k0 k) eqn:E; simpl.
    + apply String.eqb_eq in E. subst. intuition.
    + intros [H|H]; auto. destruct (IH H); auto.
  - exact IH.
Qed.

Lemma jsmap_wf_set m k v : JSMap.wf m -> JSMap.wf (JSMap.set m k v).
Proof.
  unfold JSMap.wf, JSMap.keys.
  induction m as [|[[k0 v0]|] m IH]; simpl.
  - intros _. constructor; [intros []|constructor].
  - intros Hnd. inversion Hnd as [|x l Hx Hl]; subst.
    destruct (String.eqb k0 k) eqn:E; simpl.
    + apply String.eqb_eq in E. subst. now constructor.
    + constructor; auto.
      intros Hin. apply (jsmap_keys_set_subset m k v) in Hin.
      apply String.eqb_neq in E. destruct Hin; [congruence|auto].
  - exact IH.
Qed.

Lemma jsmap_get_delete_eq m k : JSMap.wf m -> JSMap.get (JSMap.delete m k) k = None.
Proof.
  unfold JSMap.wf, JSMap.keys.
  induction m as [|[[k0 v0]|] m IH]; simpl; auto.
  intros Hnd. inversion Hnd as [|x l Hx Hl]; subst.
  destruct (String.eqb k0 k) eqn:E; simpl.
  - apply String.eqb_eq in E. subst.
    destruct (JSMap.get m k) eqn:G; auto.
    apply jsmap_get_in_keys in G. contradiction.
  - rewrite E. auto.
Qed.

Lemma jsmap_find_get (p : V -> bool) m k v :
  JSMap.wf m -> JSMap.find p m = Some (k, v) ->
  JSMap.get m k = Some v /\ p v = true.
Proof.
  unfold JSMap.wf, JSMap.keys.
  induction m as [|[[k0 v0]|] m IH]; simpl; try discriminate; auto.
  intros Hnd Hf. inversion Hnd as [|x l Hx Hl]; subst.
  destruct (p v0) eqn:P.
  - inversion Hf; subst. now rewrite String.eqb_refl.
  - destruct (IH Hl Hf) as [G Pv]. split; auto.
    destruct (String.eqb k0 k) eqn:E; auto.
    apply String.eqb_eq in E. subst.
    apply jsmap_get_in_keys in G. contradiction.
Qed.

Lemma jsmap_find_none (p : V -> bool) m k v :
  JSMap.find p m = None -> JSMap.get m k = Some v -> p v = false.
Proof.
  induction m as [|[[k0 v0]|] m IH]; simpl; try discriminate; auto.
  destruct (p v0) eqn:P; try discriminate.
  intros Hf. destruct (String.eqb k0 k); auto.
  intros H. inversion H. now subst.
Qed.

Lemma jsmap_count_le_1 m k : JSMap.wf m -> (JSMap.count m k <= 1)%nat.
Proof.
  unfold JSMap.wf, JSMap.count. generalize (JSMap.keys m) as l.
  induction l as [|x l IH]; simpl; auto.
  intros Hnd. inversion Hnd as [|y l' Hx Hl]; subst.
  destruct (String.eqb k x) eqn:E; simpl; auto.
  apply String.eqb_eq in E. subst x.
  assert (filter (String.eqb k) l = []) as ->; simpl; auto.
  clear IH Hnd Hl. induction l as [|y l IH]; simpl; auto.
  destruct (String.eqb k y) eqn:E.
  - apply String.eqb_eq in E. subst. exfalso. apply Hx. now left.
  - apply IH. intros H. apply Hx. now right.
Qed.

Lemma jsmap_wf_empty : JSMap.wf (@JSMap.empty V).
Proof. constructor. Qed.
End JSMapFacts.

(** ** Statements that respect a relation *)

Section Respects.
Variable R : World -> World -> Prop.
Hypothesis R_refl : forall w, R w w.
Hypothesis R_trans : forall a b c, R a b -> R b c -> R a c.

Lemma respects_ret {A} (a : A) : respects R (ret a).
Proof. intros w. apply R_refl. Qed.

Lemma respects_throw {A} (e : string) : respects R (@throw A e).
Proof. intros w. apply R_refl. Qed.

Lemma respects_gets {A} (f : World -> A) : respects R (gets f).
Proof. intros w. apply R_refl. Qed.

Lemma respects_modify (f : World -> World) :
  (forall w, R w (f w)) -> respects R (modify f).
Proof. intros H w. apply H. Qed.

Lemma respects_bind {A B} (m : M A) (f : A -> M B) :
  respects R m -> (forall a, respects R (f a)) -> respects R (bind m f).
Proof.
  intros Hm Hf w. unfold bind. specialize (Hm w).
  destruct (m w) as [a w1|e w1]; auto.
  specialize (Hf a w1). destruct (f a w1); eauto.
Qed.

Lemma respects_try (m : M unit) : respects R m -> respects R (try_ m).
Proof.
  intros Hm w. unfold try_. specialize (Hm w). destruct (m w); auto.
Qed.

Lemma respects_run {A} (m : M A) (w : World) : respects R m -> R w (run m w).
Proof.
  intros Hm. unfold run. specialize (Hm w). destruct (m w); auto.
Qed.

Lemma respects_if {A} (b : bool) (m1 m2 : M A) :
  respects R m1 -> respects R m2 -> respects R (if b then m1 else m2).
Proof. destruct b; auto. Qed.

(** What the building blocks must satisfy for every handler to follow. *)
Hypothesis R_sent : forall w l, R w (set_sent l w).
Hypothesis R_pending : forall w l, R w (set_pending l w).
Hypothesis R_db : forall w d, R w (set_db d w).
Hypothesis R_clock : forall w t, R w (set_clock t w).
Hypothesis R_put_admin : forall w k c,
  R w (set_adminConnections (JSMap.set (adminConnections w) k c) w).
Hypothesis R_delete_admin : forall w k,
  R w (set_adminConnections (JSMap.delete (adminConnections w) k) w).

Lemma respects_ws_send (s : WS) (m : ServerMsg) : respects R (ws_send s m).
Proof.
  intros w. unfold ws_send. destruct (readyState w s); auto.
Qed.

Lemma respects_await (q : DbReq) (k : Cont) : respects R (await q k).
Proof. apply respects_modify. auto. Qed.

Lemma respects_newDate : respects R newDate.
Proof. apply respects_gets. Qed.

Lemma respects_broadcast_loop (cs : list AdminConn) (m : ServerMsg) :
  respects R (broadcast_loop cs m).
Proof.
  induction cs as [|c cs IH]; simpl.
  - apply respects_ret.
  - apply respects_bind; [apply respects_gets|]. intros st.
    apply respects_bind; [|auto].
    apply respects_if; [apply respects_ws_send|apply respects_ret].
Qed.

Lemma respects_put_admin (k : string) (c : AdminConn) : respects R (put_admin k c).
Proof. apply respects_modify. intros w. apply R_put_admin. Qed.

Lemma respects_delete_admin (k : string) : respects R (delete_admin k).
Proof. apply respects_modify. intros w. apply R_delete_admin. Qed.
Hypothesis R_published :
  forall w x, R w (set_published (published w ++ x) w).

Lemma respects_broadcastToAdmins (m : ServerMsg) (t : option string) :
  respects R (broadcastToAdmins m t).
Proof.
  unfold broadcastToAdmins.
  apply respects_bind; [apply respects_modify; auto|]. intros _.
  apply respects_bind; [apply respects_gets|]. intros cs.
  apply respects_broadcast_loop.
Qed.

Lemma respects_telemetry_cont (k : Cont) (r : option DeviceRow) :
  telemetry_cont k = true -> respects R (resume k r).
Proof.
  destruct k; simpl; try discriminate; intros _; apply respects_try;
    try apply respects_await;
    destruct r; try apply respects_ret; apply respects_broadcastToAdmins.
Qed.

Lemma respects_telemetry (s : WS) (data : ClientMsg) :
  telemetry data = true -> respects R (onMessage s data).
Proof.
  destruct data; simpl; try discriminate; intros _; apply respects_try.
  - apply respects_try, respects_await.
  - unfold handleDeviceStatus. apply respects_try. destruct stats.
    + apply respects_bind; [apply respects_newDate|]. intros now.
      apply respects_await.
    + apply respects_throw.
  - unfold handleScreenshotResult. apply respects_try.
    apply respects_bind; [apply respects_newDate|]. intros now.
    apply respects_await.
Qed.

Hypothesis R_put_device : forall w k c,
  R w (set_deviceConnections (JSMap.set (deviceConnections w) k c) w).
Hypothesis R_delete_device : forall w k,
  R w (set_deviceConnections (JSMap.delete (deviceConnections w) k) w).

Lemma respects_put_device (k : string) (c : DeviceConn) : respects R (put_device k c).
Proof. apply respects_modify. intros w. apply R_put_device. Qed.

Lemma respects_delete_device (k : string) : respects R (delete_device k).
Proof. apply respects_modify. intros w. apply R_delete_device. Qed.

Lemma respects_tick_loop (now : Z) (i : nat) : respects R (tick_loop now i).
Proof.
  unfold tick_loop. apply respects_bind; [apply respects_gets|]. intros slots.
  destruct (scan now slots i) as [[[j d] c]|]; [apply respects_await|apply respects_ret].
Qed.

Lemma respects_resume (k : Cont) (r : option DeviceRow) : respects R (resume k r).
Proof.
  destruct (telemetry_cont k) eqn:T; [now apply respects_telemetry_cont|].
  destruct k; simpl in *; try discriminate.
  - apply respects_try. destruct r.
    + apply respects_bind; [apply respects_newDate|]. intros now.
      apply respects_bind; [apply respects_put_device|]. intros _.
      apply respects_bind; [apply respects_newDate|]. intros now'.
      apply respects_await.
    + apply respects_ws_send.
  - apply respects_try, respects_await.
  - apply respects_try. apply respects_bind; [apply respects_ws_send|]. intros _.
    apply respects_broadcastToAdmins.
  - apply respects_try, respects_ws_send.
  - apply respects_await.
  - apply respects_bind; [apply respects_delete_device|]. intros _.
    apply respects_bind; [|intros _; apply respects_tick_loop].
    destruct (device connection); [apply respects_broadcastToAdmins|apply respects_ret].
Qed.

Lemma respects_onMessage (s : WS) (data : ClientMsg) : respects R (onMessage s data).
Proof.
  destruct (telemetry data) eqn:T; [now apply respects_telemetry|].
  destruct data; simpl in *; try discriminate; apply respects_try;
    try apply respects_ret; try apply respects_throw.
  - apply respects_try, respects_await.
  - unfold handleAdminRegister. apply respects_try.
    apply respects_bind; [apply respects_newDate|]. intros now.
    apply respects_bind; [apply respects_put_admin|]. intros _.
    apply respects_ws_send.
  - unfold handleHeartbeat. apply respects_try.
    apply respects_bind; [apply respects_gets|]. intros [c|]; [|apply respects_ret].
    apply respects_bind; [apply respects_newDate|]. intros now.
    apply respects_bind; [apply respects_put_device|]. intros _.
    apply respects_bind; [apply respects_newDate|]. intros now'.
    apply respects_await.
Qed.

Lemma respects_reply (n : nat) : respects R (reply n).
Proof.
  intros w. unfold reply. destruct (nth_error (pending w) n) as [[q k]|]; auto.
  destruct (db_exec q (db w)) as [d r].
  pose proof (respects_resume k r
                (set_db d (set_pending (remove_nth n (pending w)) w))) as H.
  assert (R w (set_db d (set_pending (remove_nth n (pending w)) w))) as H0
    by (eapply R_trans; [apply R_pending|apply R_db]).
  destruct (resume k r _); eauto.
Qed.

Lemma respects_onClose (s : WS) : respects R (onClose s).
Proof.
  unfold onClose.
  apply respects_bind; [apply respects_gets|]. intros f.
  apply respects_bind.
  { destruct f as [[key c]|]; [apply respects_delete_device|apply respects_ret]. }
  intros _. apply respects_bind; [apply respects_gets|]. intros f'.
  destruct f' as [[key c]|]; [apply respects_delete_admin|apply respects_ret].
Qed.

Lemma respects_broadcastToDevice (d : string) (m : ServerMsg) :
  respects R (broadcastToDevice d m).
Proof.
  unfold broadcastToDevice.
  apply respects_bind; [apply respects_gets|]. intros [c|]; [|apply respects_ret].
  apply respects_bind; [apply respects_gets|]. intros st.
  apply respects_if; [|apply respects_ret].
  apply respects_bind; [apply respects_ws_send|]. intros _. apply respects_ret.
Qed.

(** Every event other than the transport's own. *)
Lemma respects_handle (e : Event) :
  transport_event e = false -> respects R (handle e).
Proof.
  destruct e; simpl; try discriminate; intros _.
  - apply respects_onMessage.
  - unfold cleanup. apply respects_bind; [apply respects_newDate|]. intros now.
    apply respects_tick_loop.
  - apply respects_reply.
  - apply respects_modify. auto.
  - apply respects_bind; [apply respects_broadcastToDevice|]. intros _.
    apply respects_ret.
Qed.

Hypothesis R_sockets : forall w l, R w (set_sockets l w).

Lemma respects_handle_all (e : Event) : respects R (handle e).
Proof.
  destruct (transport_event e) eqn:T; [|now apply respects_handle].
  destruct e; simpl in *; try discriminate.
  - apply respects_bind; [apply respects_modify; auto|]. intros _.
    apply respects_ws_send.
  - apply respects_bind; [apply respects_modify; auto|]. intros _.
    apply respects_onClose.
  - apply respects_modify. auto.
Qed.

Lemma respects_exec (es : list Event) (w : World) : R w (exec es w).
Proof.
  revert w. induction es as [|e es IH]; intros w; simpl; auto.
  eapply R_trans; [|apply IH]. unfold step.
  apply respects_run, respects_handle_all.
Qed.
End Respects.

(** ** Channels are left alone: only the transport changes their state *)

Lemma same_sockets_handle (e : Event) (w : World) :
  transport_event e = false -> sockets (step e w) = sockets w.
Proof.
  intros T. unfold step.
  apply (respects_run same_sockets), respects_handle; auto;
    unfold same_sockets; simpl; intros; congruence.
Qed.

(** ** What a broadcast writes *)

Lemma set_sent_nil (w : World) : set_sent (sent w ++ []) w = w.
Proof. destruct w; unfold set_sent; simpl. now rewrite app_nil_r. Qed.

Lemma set_sent_set_sent (l1 l2 : list (WS * ServerMsg)) (w : World) :
  set_sent l2 (set_sent l1 w) = set_sent l2 w.
Proof. reflexivity. Qed.

Lemma broadcast_loop_exact (cs : list AdminConn) (m : ServerMsg) (w : World) :
  broadcast_loop cs m w =
  Ok tt (set_sent (sent w ++ map (fun c => (admin_ws c, m))
                     (filter (fun c => isOPEN (readyState w (admin_ws c))) cs)) w).
Proof.
  revert w. induction cs as [|c cs IH]; intros w; simpl.
  - unfold ret. now rewrite set_sent_nil.
  - unfold bind, gets.
    destruct (readyState w (admin_ws c)) eqn:E; simpl; auto.
    unfold ws_send. rewrite E. rewrite IH. simpl.
    rewrite set_sent_set_sent. unfold readyState. simpl.
    now rewrite <- app_assoc.
Qed.

Lemma broadcastToAdmins_exact (m : ServerMsg) (t : option string) (w : World) :
  broadcastToAdmins m t w =
  Ok tt (set_sent (sent w ++ deliveries w m)
           (set_published (published w ++ [(m, t)]) w)).
Proof.
  unfold broadcastToAdmins, bind, modify, gets. now rewrite broadcast_loop_exact.
Qed.

(** ** Command dispatch *)

Lemma broadcastToDevice_cases (w : World) (d : string) (m : ServerMsg) :
  broadcastToDevice d m w =
  match JSMap.get (deviceConnections w) d with
  | Some c => if isOPEN (readyState w (ws c))
              then Ok true (set_sent (sent w ++ [(ws c, m)]) w)
              else Ok false w
  | None => Ok false w
  end.
Proof.
  unfold broadcastToDevice, bind, gets, ret.
  destruct (JSMap.get (deviceConnections w) d) as [c|]; auto.
  unfold ws_send. destruct (readyState w (ws c)) eqn:E; simpl; auto.
  now rewrite E.
Qed.

Lemma isOPEN_true (s : ReadyState) : isOPEN s = true <-> s = OPEN.
Proof. destruct s; simpl; split; congruence. Qed.

(** C2, as stated, fails: the device is in the registry, its channel has
    started closing, and the command is reported as not delivered. *)
Lemma dispatch_present_not_delivered :
  let w := exec closing_device (boot store) in
  JSMap.has (deviceConnections w) "d1" = true /\
  broadcastToDevice "d1" UNBLOCK_DEVICE w = Ok false w.
Proof. vm_compute. split; reflexivity. Qed.

(** C2, amended: broadcastToDevice (and sendToDevice of the simplified
    variant) never throws and reports delivered = true exactly when the
    registry holds a connection for the device id and the channel of that
    connection is open; when it reports false nothing was written, and for
    a device id that is not in the registry it reports false. *)
Theorem dispatch_delivered_iff_open (w : World) (st : Simplified.State)
    (d : string) (m : ServerMsg) :
  (exists b w',
     broadcastToDevice d m w = Ok b w' /\
     (b = true <-> exists c, JSMap.get (deviceConnections w) d = Some c /\
                             readyState w (ws c) = OPEN) /\
     (b = false -> w' = w) /\
     (JSMap.get (deviceConnections w) d = None -> b = false)) /\
  (exists b st',
     Simplified.sendToDevice d m st = (b, st') /\
     (b = true <-> exists s, JSMap.get (Simplified.deviceConnections st) d = Some s /\
                             Simplified.readyState st s = OPEN) /\
     (b = false -> st' = st) /\
     (JSMap.get (Simplified.deviceConnections st) d = None -> b = false)).
Proof.
  split.
  - rewrite broadcastToDevice_cases.
    destruct (JSMap.get (deviceConnections w) d) as [c|] eqn:G.
    + destruct (isOPEN (readyState w (ws c))) eqn:O.
      * eexists _, _. split; [reflexivity|]. repeat split; try discriminate.
        exists c. split; auto. now apply isOPEN_true.
      * eexists _, _. split; [reflexivity|]. repeat split; auto; try discriminate.
        intros [c' [Hc' Ho]]. inversion Hc'; subst c'.
        apply isOPEN_true in Ho. congruence.
    + eexists _, _. split; [reflexivity|]. repeat split; auto; try discriminate.
      intros [c' [Hc' _]]. discriminate.
  - unfold Simplified.sendToDevice.
    destruct (JSMap.get (Simplified.deviceConnections st) d) as [s|] eqn:G.
    + destruct (isOPEN (Simplified.readyState st s)) eqn:O.
      * eexists _, _. split; [reflexivity|]. repeat split; try discriminate.
        exists s. split; auto. now apply isOPEN_true.
      * eexists _, _. split; [reflexivity|]. repeat split; auto; try discriminate.
        intros [s' [Hs' Ho]]. inversion Hs'; subst s'.
        apply isOPEN_true in Ho. congruence.
    + eexists _, _. split; [reflexivity|]. repeat split; auto; try discriminate.
      intros [s' [Hs' _]]. discriminate.
Qed.

(** ** Heartbeats *)

(** C10: a HEARTBEAT for a device id that has no entry in the registry
    changes nothing: no frame is written (so no HEARTBEAT_ACK), the
    registry is the same and no request goes to the backing store. *)
Theorem heartbeat_unregistered_noop (w : World) (s : WS) (d : string) :
  JSMap.get (deviceConnections w) d = None ->
  step (Message s (HEARTBEAT d)) w = w.
Proof.
  intros H. unfold step, run, handle, onMessage, handleHeartbeat, try_, bind, gets.
  now rewrite H.
Qed.

Lemma heartbeat_unregistered_noop_witness :
  JSMap.get (deviceConnections (boot store)) "d1" = None /\
  step (Message 2 (HEARTBEAT "d1")) (boot store) = boot store.
Proof.
  split; [reflexivity|].
  apply (heartbeat_unregistered_noop (boot store) 2 "d1"). reflexivity.
Defined.

(** ** Publishing to the administrators *)

(** C1 fails on the code at this input: an administrator of tenant B
    listens on channel 3; the device of tenant A reports a playback; the
    event is published for tenant A and is written to channel 3. *)
Theorem other_tenant_observer_receives :
  let w := exec cross_tenant (boot store) in
  In (PLAYBACK_UPDATE "d1" "c1" "g1" 10, Some "A") (published w) /\
  tenant_of_user (users (db w)) "uB" = Some "B" /\
  (exists c, JSMap.get (adminConnections w) "uB" = Some c /\ admin_ws c = 3) /\
  In (3, PLAYBACK_UPDATE "d1" "c1" "g1" 10%Z) (sent w).
Proof.
  vm_compute. repeat split; auto.
  - eexists. split; reflexivity.
  - repeat (try (left; reflexivity); right).
Qed.

(** Whatever tenant a broadcast is called with, the same frames go to the
    same channels. *)
Lemma broadcast_ignores_tenant (m : ServerMsg) (t t' : option string) (w : World) :
  sent (run (broadcastToAdmins m t) w) = sent (run (broadcastToAdmins m t') w).
Proof. unfold run. now rewrite !broadcastToAdmins_exact. Qed.

(** C8, as stated, fails: the channel of administrator uA is closing, so
    nothing can be written to it; after the broadcast the entry of uA is
    still in the registry, exactly as before, and nothing is left to run
    that would remove it. *)
Lemma closed_observer_not_removed :
  let w := exec one_observer_closing (boot store) in
  let w' := run (broadcastToAdmins (DEVICE_ONLINE "d1" "Lobby") (Some "A")) w in
  readyState w 1 = CLOSING /\
  ~ In (1, DEVICE_ONLINE "d1" "Lobby") (sent w') /\
  JSMap.has (adminConnections w') "uA" = true /\
  adminConnections w' = adminConnections w /\
  pending w' = [].
Proof.
  vm_compute. repeat split; auto.
  intros H. repeat (destruct H as [H|H]; [discriminate H|]). exact H.
Qed.

(** C8, amended: a broadcast never throws; it writes the event to every
    administrator whose channel is open, in registry order, whatever the
    state of the other channels, and writes nothing else; it leaves both
    registries, the channels and the outstanding requests as they were, so
    it neither removes an entry nor schedules a removal. *)
Theorem publish_skips_closed_keeps_registry (w : World) (m : ServerMsg)
    (t : option string) :
  exists w',
    broadcastToAdmins m t w = Ok tt w' /\
    sent w' = sent w ++ deliveries w m /\
    (forall c, In c (JSMap.values (adminConnections w)) ->
               readyState w (admin_ws c) = OPEN -> In (admin_ws c, m) (deliveries w m)) /\
    (forall s, readyState w s <> OPEN -> ~ In (s, m) (deliveries w m)) /\
    adminConnections w' = adminConnections w /\
    deviceConnections w' = deviceConnections w /\
    sockets w' = sockets w /\
    pending w' = pending w.
Proof.
  eexists. split; [apply broadcastToAdmins_exact|]. simpl.
  repeat split; auto.
  - intros c Hc Ho. unfold deliveries.
    apply (in_map (fun c => (admin_ws c, m))).
    apply filter_In. split; auto. now rewrite Ho.
  - intros s Hs Hin. unfold deliveries in Hin.
    apply in_map_iff in Hin. destruct Hin as [c [Hc Hin]].
    apply filter_In in Hin. destruct Hin as [_ Ho].
    inversion Hc; subst. apply isOPEN_true in Ho. contradiction.
Qed.

(** ** Registration *)

Lemma simplified_broadcast_clients (m : ServerMsg) (st : Simplified.State) :
  Simplified.clients (Simplified.broadcastToAdmin m st) = Simplified.clients st /\
  Simplified.deviceConnections (Simplified.broadcastToAdmin m st)
  = Simplified.deviceConnections st.
Proof.
  unfold Simplified.broadcastToAdmin.
  generalize (Simplified.clients st) at 1 3 as l. intros l. revert st.
  induction l as [|c l IH]; intros st; simpl; auto.
  destruct (isOPEN (snd c)); auto.
  destruct (IH (Simplified.write (fst c) m st)) as [H1 H2].
  now rewrite H1, H2.
Qed.

(** C6, as stated, fails: after the device has registered on channel 2
    and again on channel 3, the registry holds the entry of channel 3 and
    channel 2 is still open; nothing is left to run that would close it.
    The simplified variant does the same. *)
Lemma superseded_channel_stays_open :
  let w := exec double_registration (boot store) in
  let st := Simplified.onRegistered "d1" (Simplified.onRegister 3 "d1"
              (Simplified.onRegistered "d1" (Simplified.onRegister 2 "d1" two_clients))) in
  (exists c, JSMap.get (deviceConnections w) "d1" = Some c /\ ws c = 3) /\
  readyState w 2 = OPEN /\
  pending w = [] /\
  JSMap.get (Simplified.deviceConnections st) "d1" = Some 3 /\
  Simplified.readyState st 2 = OPEN.
Proof.
  vm_compute. repeat split; auto. eexists. split; reflexivity.
Qed.

(** C6, amended: a registration replaces the entry of the device id by
    the new connection and does nothing to the channel of the entry it
    replaces: no event other than the transport's own changes the state of
    any channel, so the superseded channel stays as it is until its peer
    or the transport closes it.  The same holds in the simplified
    variant. *)
Theorem register_replaces_keeps_channels (w : World) (st : Simplified.State)
    (s : WS) (d : string) (row : DeviceRow) (e : Event) :
  JSMap.get (deviceConnections (run (resume (KRegSelect s d) (Some row)) w)) d
    = Some {| ws := s; deviceId := d; lastSeen := clock w; device := Some row |} /\
  (if transport_event e then True else sockets (step e w) = sockets w) /\
  JSMap.get (Simplified.deviceConnections (Simplified.onRegister s d st)) d = Some s /\
  Simplified.clients (Simplified.onRegister s d st) = Simplified.clients st /\
  Simplified.clients (Simplified.onRegistered d st) = Simplified.clients st.
Proof.
  split; [|split; [|split; [|split]]].
  - unfold run, resume, try_, bind, newDate, gets, put_device, modify, await. simpl.
    apply jsmap_get_set_eq.
  - destruct (transport_event e) eqn:T; auto. now apply same_sockets_handle.
  - simpl. apply jsmap_get_set_eq.
  - reflexivity.
  - apply simplified_broadcast_clients.
Qed.

(** ** lastSeen *)

(** C7, as stated, fails: the registered device reports a playback one
    second after its registration; when the processing of the report is
    over, lastSeen is still the time of the registration. *)
Lemma playback_leaves_lastSeen :
  let w := exec playback_after_a_second (boot store) in
  clock w = 1000%Z /\
  (exists c, JSMap.get (deviceConnections w) "d1" = Some c /\ lastSeen c = 0%Z) /\
  pending w = [] /\
  In (PLAYBACK_UPDATE "d1" "c1" "g1" 10, Some "A") (published w).
Proof.
  vm_compute. repeat split; auto.
  eexists. split; reflexivity.
Qed.

Lemma same_devices_telemetry (s : WS) (data : ClientMsg) (w : World) :
  telemetry data = true ->
  deviceConnections (step (Message s data) w) = deviceConnections w.
Proof.
  intros T. unfold step.
  apply (respects_run same_devices). simpl.
  apply respects_telemetry; auto; unfold same_devices; simpl; intros; congruence.
Qed.

Lemma same_devices_telemetry_reply (n : nat) (q : DbReq) (k : Cont) (w : World) :
  nth_error (pending w) n = Some (q, k) -> telemetry_cont k = true ->
  deviceConnections (step (Reply n) w) = deviceConnections w.
Proof.
  intros Hn T. unfold step, run, handle, reply. rewrite Hn.
  destruct (db_exec q (db w)) as [dd r].
  pose proof (respects_telemetry_cont same_devices) as H.
  specialize (H (fun w => eq_refl)).
  assert (forall a b c, same_devices a b -> same_devices b c -> same_devices a c) as Ht
    by (unfold same_devices; intros; congruence).
  specialize (H Ht (fun w l => eq_refl) (fun w l => eq_refl) (fun w x => eq_refl)
                k r T (set_db dd (set_pending (remove_nth n (pending w)) w))).
  destruct (resume k r _); exact H.
Qed.

(** C7, amended: a HEARTBEAT for a registered device id sets the lastSeen
    of its entry to the current time; a PLAYBACK_LOG, DEVICE_STATUS or
    SCREENSHOT_RESULT leaves the registry, lastSeen included, as it was, on
    arrival and at every later stage of its processing. *)
Theorem lastSeen_moves_on_heartbeat_only (w : World) (s : WS) (d : string)
    (c : DeviceConn) :
  JSMap.get (deviceConnections w) d = Some c ->
  JSMap.get (deviceConnections (step (Message s (HEARTBEAT d)) w)) d
    = Some (with_lastSeen (clock w) c) /\
  (forall data, telemetry data = true ->
     deviceConnections (step (Message s data) w) = deviceConnections w) /\
  (forall n q k, nth_error (pending w) n = Some (q, k) -> telemetry_cont k = true ->
     deviceConnections (step (Reply n) w) = deviceConnections w).
Proof.
  intros G. split; [|split].
  - unfold step, run, handle, onMessage, handleHeartbeat, try_, bind, gets.
    rewrite G. simpl. apply jsmap_get_set_eq.
  - intros data. apply same_devices_telemetry.
  - intros n q k. apply same_devices_telemetry_reply.
Qed.

Lemma lastSeen_moves_on_heartbeat_only_witness :
  let w := exec (device_online ++ [Elapse 1000]) (boot store) in
  let c := {| ws := 2; deviceId := "d1"; lastSeen := 0; device := Some lobby |} in
  JSMap.get (deviceConnections w) "d1" = Some c /\
  JSMap.get (deviceConnections (step (Message 2 (HEARTBEAT "d1")) w)) "d1"
    = Some (with_lastSeen 1000 c).
Proof.
  split; [vm_compute; reflexivity|].
  apply (lastSeen_moves_on_heartbeat_only
           (exec (device_online ++ [Elapse 1000]) (boot store)) 2 "d1"
           {| ws := 2; deviceId := "d1"; lastSeen := 0; device := Some lobby |}).
  vm_compute. reflexivity.
Defined.

(** ** Closing a channel *)

Lemma close_devices (s : WS) (w : World) :
  deviceConnections (step (Close s) w) = close_in ws s (deviceConnections w).
Proof.
  unfold step, run, handle, onClose, set_readyState, bind, modify, gets, close_in.
  simpl.
  destruct (JSMap.find (fun c => Nat.eqb (ws c) s) (deviceConnections w))
    as [[key c]|]; simpl;
    destruct (JSMap.find (fun c => Nat.eqb (admin_ws c) s) (adminConnections w))
    as [[key' c']|]; reflexivity.
Qed.

Lemma close_admins (s : WS) (w : World) :
  adminConnections (step (Close s) w) = close_in admin_ws s (adminConnections w).
Proof.
  unfold step, run, handle, onClose, set_readyState, bind, modify, gets, close_in.
  simpl.
  destruct (JSMap.find (fun c => Nat.eqb (ws c) s) (deviceConnections w))
    as [[key c]|]; simpl;
    destruct (JSMap.find (fun c => Nat.eqb (admin_ws c) s) (adminConnections w))
    as [[key' c']|]; reflexivity.
Qed.

Lemma simplified_close_devices (s : WS) (st : Simplified.State) :
  Simplified.deviceConnections (Simplified.onClose s st)
  = close_in (fun c => c) s (Simplified.deviceConnections st).
Proof.
  unfold Simplified.onClose, close_in. cbv zeta.
  change (Simplified.deviceConnections (Simplified.closed s st))
    with (Simplified.deviceConnections st).
  destruct (JSMap.find _ _) as [[key c]|]; auto.
  now rewrite (proj2 (simplified_broadcast_clients _ _)).
Qed.

Section CloseIn.
Context {V : Type} (chan : V -> WS).

Lemma close_in_wf (s : WS) (m : JSMap.t V) : JSMap.wf m -> JSMap.wf (close_in chan s m).
Proof.
  intros Hwf. unfold close_in.
  destruct (JSMap.find _ m) as [[key c]|]; auto. now apply jsmap_wf_delete.
Qed.

(** An entry of another channel survives the close. *)
Lemma close_in_spares (s : WS) (m : JSMap.t V) (k : string) (v : V) :
  JSMap.wf m -> JSMap.get m k = Some v -> chan v <> s ->
  JSMap.get (close_in chan s m) k = Some v.
Proof.
  intros Hwf G Hne. unfold close_in.
  destruct (JSMap.find _ m) as [[key c]|] eqn:F; auto.
  apply jsmap_find_get in F; auto. destruct F as [Gk Hc].
  apply Nat.eqb_eq in Hc.
  rewrite jsmap_get_delete_ne; auto.
  intros ->. congruence.
Qed.

(** A close only removes: what is in the registry afterwards was there. *)
Lemma close_in_get (s : WS) (m : JSMap.t V) (k : string) (v : V) :
  JSMap.wf m -> JSMap.get (close_in chan s m) k = Some v -> JSMap.get m k = Some v.
Proof.
  intros Hwf. unfold close_in.
  destruct (JSMap.find _ m) as [[key c]|] eqn:F; auto.
  destruct (String.eqb key k) eqn:E.
  - apply String.eqb_eq in E. subst. rewrite jsmap_get_delete_eq; auto. discriminate.
  - apply String.eqb_neq in E. now rewrite jsmap_get_delete_ne.
Qed.
End CloseIn.

(** C5: when the registry holds, for a device id, a connection whose
    channel is not the closing one (the entry of a newer registration),
    processing the close of the old channel leaves that entry as it is; the
    removal is matched on the channel.  The same holds in the simplified
    variant. *)
Theorem stale_close_spares_newer (w : World) (st : Simplified.State) (d : string)
    (c : DeviceConn) (s old : WS) :
  JSMap.wf (deviceConnections w) ->
  JSMap.get (deviceConnections w) d = Some c -> ws c <> old ->
  JSMap.wf (Simplified.deviceConnections st) ->
  JSMap.get (Simplified.deviceConnections st) d = Some s -> s <> old ->
  JSMap.get (deviceConnections (step (Close old) w)) d = Some c /\
  JSMap.get (Simplified.deviceConnections (Simplified.onClose old st)) d = Some s.
Proof.
  intros Hwf G Hne Hwf' G' Hne'. split.
  - rewrite close_devices. now apply close_in_spares.
  - rewrite simplified_close_devices. now apply (close_in_spares (fun c => c)).
Qed.

Lemma nodup_one (k : string) : NoDup [k].
Proof. constructor; [intros []|constructor]. Qed.

Lemma stale_close_spares_newer_witness :
  let w := exec double_registration (boot store) in
  let st := Simplified.onRegister 3 "d1" (Simplified.onRegister 2 "d1" two_clients) in
  let c := {| ws := 3; deviceId := "d1"; lastSeen := 0;
              device := Some (update_row (Some "online") (Some 0%Z) lobby) |} in
  JSMap.get (deviceConnections (step (Close 2) w)) "d1" = Some c /\
  JSMap.get (Simplified.deviceConnections (Simplified.onClose 2 st)) "d1" = Some 3.
Proof.
  apply (stale_close_spares_newer
           (exec double_registration (boot store))
           (Simplified.onRegister 3 "d1" (Simplified.onRegister 2 "d1" two_clients))
           "d1"
           {| ws := 3; deviceId := "d1"; lastSeen := 0;
              device := Some (update_row (Some "online") (Some 0%Z) lobby) |}
           3 2).
  - vm_compute. apply nodup_one.
  - vm_compute. reflexivity.
  - vm_compute. lia.
  - vm_compute. apply nodup_one.
  - vm_compute. reflexivity.
  - lia.
Defined.

(** ** One entry per device id *)

Lemma do_op_devices (op : RegistryOp) (w : World) :
  deviceConnections (do_op op w) = registry_op (clock w) op (deviceConnections w) /\
  clock (do_op op w) = clock w.
Proof.
  destruct op as [s d row|s]; simpl.
  - split; reflexivity.
  - split; [apply close_devices|].
    unfold step, run, handle, onClose, set_readyState, bind, modify, gets. simpl.
    destruct (JSMap.find (fun c => Nat.eqb (ws c) s) (deviceConnections w))
      as [[key c]|]; simpl;
      destruct (JSMap.find (fun c => Nat.eqb (admin_ws c) s) (adminConnections w))
      as [[key' c']|]; reflexivity.
Qed.

Lemma do_ops_devices (ops : list RegistryOp) (w : World) :
  deviceConnections (do_ops ops w)
  = fold_left (fun m op => registry_op (clock w) op m) ops (deviceConnections w).
Proof.
  revert w. induction ops as [|op ops IH]; intros w; simpl; auto.
  unfold do_ops in *. rewrite IH.
  destruct (do_op_devices op w) as [-> ->]. reflexivity.
Qed.

Lemma registry_op_wf (now : Z) (op : RegistryOp) (m : JSMap.t DeviceConn) :
  JSMap.wf m -> JSMap.wf (registry_op now op m).
Proof.
  destruct op; simpl; intros; [now apply jsmap_wf_set|now apply close_in_wf].
Qed.

Lemma registry_ops_latest (d : string) (now : Z) (ops : list RegistryOp) :
  forall (m : JSMap.t DeviceConn) (acc : option DeviceConn),
    JSMap.wf m ->
    (forall c, JSMap.get m d = Some c -> acc = Some c) ->
    let m' := fold_left (fun m op => registry_op now op m) ops m in
    JSMap.wf m' /\
    forall c, JSMap.get m' d = Some c -> latest d now ops acc = Some c.
Proof.
  induction ops as [|op ops IH]; intros m acc Hwf Hacc; simpl; auto.
  destruct op as [s d' row|s]; simpl.
  - apply IH; [now apply jsmap_wf_set|].
    intros c. destruct (String.eqb d' d) eqn:E.
    + apply String.eqb_eq in E. subst d'. rewrite jsmap_get_set_eq. auto.
    + apply String.eqb_neq in E. rewrite jsmap_get_set_ne; auto.
  - apply IH; [now apply close_in_wf|].
    intros c Hc. apply Hacc. now apply close_in_get in Hc.
Qed.

(** C4: after any sequence of registrations and closes the registry holds
    at most one entry for a device id, and when it holds one it is the
    entry made by the most recent registration of that id. *)
Theorem registry_one_entry_latest (w : World) (ops : list RegistryOp) (d : string) :
  JSMap.wf (deviceConnections w) ->
  (JSMap.count (deviceConnections (do_ops ops w)) d <= 1)%nat /\
  forall c, JSMap.get (deviceConnections (do_ops ops w)) d = Some c ->
            latest d (clock w) ops (JSMap.get (deviceConnections w) d) = Some c.
Proof.
  intros Hwf. rewrite do_ops_devices.
  destruct (registry_ops_latest d (clock w) ops (deviceConnections w)
              (JSMap.get (deviceConnections w) d) Hwf (fun c H => H)) as [Hwf' Hl].
  split; [now apply jsmap_count_le_1|exact Hl].
Qed.

Lemma registry_one_entry_latest_witness :
  let ops := [OpRegister 2 "d1" lobby; OpRegister 3 "d1" lobby; OpClose 2] in
  (JSMap.count (deviceConnections (do_ops ops (boot store))) "d1" <= 1)%nat /\
  forall c, JSMap.get (deviceConnections (do_ops ops (boot store))) "d1" = Some c ->
            Some {| ws := 3; deviceId := "d1"; lastSeen := 0; device := Some lobby |}
            = Some c.
Proof.
  apply (registry_one_entry_latest (boot store)
           [OpRegister 2 "d1" lobby; OpRegister 3 "d1" lobby; OpClose 2] "d1").
  constructor.
Defined.


(** ** Every state the process reaches has well-formed registries *)

Lemma reachable_wf (w : World) :
  reachable w ->
  JSMap.wf (deviceConnections w) /\ JSMap.wf (adminConnections w).
Proof.
  intros [d [es ->]].
  assert (keeps_wf (boot d) (exec es (boot d))) as [H1 H2].
  { apply (respects_exec keeps_wf); unfold keeps_wf; simpl; intros.
    all: try (split; intros; auto using jsmap_wf_set, jsmap_wf_delete; fail).
    tauto. }
  split; [apply H1|apply H2]; constructor.
Qed.

(** ** The order of the broadcasts *)

Lemma grows_published_exec (es : list Event) (w : World) :
  exists l, published (exec es w) = published w ++ l.
Proof.
  apply (respects_exec grows_published); unfold grows_published; simpl; intros;
    try (exists []; now rewrite app_nil_r).
  - destruct H as [l1 H1]. destruct H0 as [l2 H2].
    exists (l1 ++ l2). rewrite H2, H1. now rewrite app_assoc.
  - now exists x.
Qed.

Lemma nth_error_snoc {A} (p : list A) (x : A) :
  nth_error (p ++ [x]) (List.length p) = Some x.
Proof. induction p; simpl; auto. Qed.

Lemma remove_nth_snoc {A} (p : list A) (x : A) :
  remove_nth (List.length p) (p ++ [x]) = p.
Proof. induction p; simpl; auto. now rewrite IHp. Qed.


Lemma reply_last (w : World) (q : DbReq) (k : Cont) (p : list (DbReq * Cont)) :
  pending w = p ++ [(q, k)] ->
  step (Reply (List.length p)) w
  = run (resume k (snd (db_exec q (db w))))
        (set_db (fst (db_exec q (db w))) (set_pending p w)).
Proof.
  intros Hp. unfold step, run, handle, reply.
  rewrite Hp, nth_error_snoc, remove_nth_snoc.
  destruct (db_exec q (db w)); reflexivity.
Qed.

Lemma exec_cons (e : Event) (es : list Event) (w : World) :
  exec (e :: es) w = exec es (step e w).
Proof. reflexivity. Qed.

Lemma exec_app (es es' : list Event) (w : World) :
  exec (es ++ es') w = exec es' (exec es w).
Proof. apply fold_left_app. Qed.

Lemma step_register_message (w : World) (s : WS) (d : string) (tok : option string) :
  step (Message s (DEVICE_REGISTER d tok)) w
  = set_pending (pending w ++ [(SelectDevice d, KRegSelect s d)]) w.
Proof. reflexivity. Qed.

Lemma resume_reg_select_found (w : World) (s : WS) (d : string) (row : DeviceRow) :
  run (resume (KRegSelect s d) (Some row)) w
  = set_pending (pending w ++ [(UpdateDevice d (Some "online") (Some (clock w)),
                                KRegUpdate s d row)])
      (set_deviceConnections
         (JSMap.set (deviceConnections w) d
            {| ws := s; deviceId := d; lastSeen := clock w; device := Some row |}) w).
Proof. reflexivity. Qed.

Lemma resume_reg_update (w : World) (s : WS) (d : string) (row : DeviceRow)
    (r : option DeviceRow) :
  run (resume (KRegUpdate s d row) r) w
  = set_pending (pending w ++ [(InsertDeviceLog
                                  {| log_device_id := d; event_type := "online";
                                     log_message := "Device connected via WebSocket" |},
                                KRegInsert s d row)]) w.
Proof. reflexivity. Qed.

Lemma resume_reg_insert (w : World) (s : WS) (d : string) (row : DeviceRow)
    (r : option DeviceRow) :
  readyState w s <> CONNECTING ->
  exists l,
    run (resume (KRegInsert s d row) r) w
    = set_sent l (set_published
                    (published w ++ [(DEVICE_ONLINE d (name row), tenant_id row)]) w).
Proof.
  intros Hst. unfold run, resume, try_, bind. unfold ws_send.
  destruct (readyState w s) eqn:E; try congruence;
    rewrite broadcastToAdmins_exact; eexists; reflexivity.
Qed.

Lemma registration_uninterrupted (w : World) (s : WS) (d : string)
    (tok : option string) (row : DeviceRow) :
  single (filter (fun r => String.eqb (id r) d) (devices (db w))) = Some row ->
  readyState w s <> CONNECTING ->
  let n := List.length (pending w) in
  let w' := exec [Message s (DEVICE_REGISTER d tok); Reply n; Reply n; Reply n] w in
  published w' = published w ++ [(DEVICE_ONLINE d (name row), tenant_id row)] /\
  pending w' = pending w /\
  JSMap.get (deviceConnections w') d
  = Some {| ws := s; deviceId := d; lastSeen := clock w; device := Some row |}.
Proof.
  intros Hrow Hst n w'. subst w' n.
  rewrite exec_cons, step_register_message.
  rewrite exec_cons, (reply_last _ (SelectDevice d) (KRegSelect s d) (pending w))
    by reflexivity.
  replace (db_exec (SelectDevice d) _) with (db w, Some row)
    by (simpl; now rewrite Hrow).
  cbn [fst snd]. rewrite resume_reg_select_found.
  rewrite exec_cons, (reply_last _ _ _ (pending w)) by reflexivity.
  rewrite resume_reg_update.
  rewrite exec_cons, (reply_last _ _ _ (pending w)) by reflexivity.
  match goal with
  | |- context [run (resume (KRegInsert s d row) ?r) ?w0] =>
      destruct (resume_reg_insert w0 s d row r) as [l ->]; [exact Hst|]
  end.
  simpl. repeat split; auto. apply jsmap_get_set_eq.
Qed.

(** ** The offline cleanup *)

(** C3 fails on the code at this input.  The cleanup has found the entry
    of channel 2 timed out and awaits the backing store; the device has
    meanwhile registered again on channel 3, and the registry holds that
    entry, whose lastSeen is the present time.  When the cleanup resumes it
    deletes by device id: the entry of channel 3 is gone and DEVICE_OFFLINE
    is published.  When everything outstanding has been answered the
    device has been told REGISTERED on its open channel 3, the store says
    online, and the registry has no entry for it. *)
Theorem cleanup_evicts_fresh_registration :
  let w := exec reconnect_during_cleanup (boot store) in
  let w' := step (Reply 0) w in
  let w'' := exec [Reply 0; Reply 0] w' in
  option_map snd (nth_error (pending w) 0)
    = Some (KTickInsert 300001 0 "d1"
              {| ws := 2; deviceId := "d1"; lastSeen := 0; device := Some lobby |}) /\
  option_map ws (JSMap.get (deviceConnections w) "d1") = Some 3 /\
  option_map lastSeen (JSMap.get (deviceConnections w) "d1") = Some (clock w) /\
  option_map (timed_out (clock w)) (JSMap.get (deviceConnections w) "d1") = Some false /\
  JSMap.get (deviceConnections w') "d1" = None /\
  last (published w') (CONNECTED, None) = (DEVICE_OFFLINE "d1" "Lobby", Some "A") /\
  pending w'' = [] /\
  JSMap.get (deviceConnections w'') "d1" = None /\
  readyState w'' 3 = OPEN /\
  filter (fun f => Nat.eqb (fst f) 3) (sent w'') = [(3, CONNECTED); (3, REGISTERED "d1")] /\
  map status (devices (db w'')) = ["online"].
Proof.
  cbv zeta. repeat (split; [vm_compute; reflexivity|]). vm_compute. reflexivity.
Qed.

(** * Further properties of the handlers *)

(** ** The cleanup when nothing interleaves *)

Lemma set_pending_same (w : World) : set_pending (pending w) w = w.
Proof. now destruct w. Qed.

Lemma tick_loop_unfold (now : Z) (i : nat) (w : World) :
  tick_loop now i w =
  match scan now (skipn i (deviceConnections w)) i with
  | None => Ok tt w
  | Some (j, d, c) =>
      Ok tt (set_pending (pending w ++ [(UpdateDevice d (Some "offline") None,
                                         KTickUpdate now j d c)]) w)
  end.
Proof.
  unfold tick_loop, bind, gets.
  destruct (scan now (skipn i (deviceConnections w)) i) as [[[j d] c]|]; reflexivity.
Qed.

Lemma skipn_length_app {A} (pre suf : list A) :
  skipn (List.length pre) (pre ++ suf) = suf.
Proof. induction pre; simpl; auto. Qed.

Lemma jsmap_keys_app {V} (m1 m2 : JSMap.t V) :
  JSMap.keys (m1 ++ m2) = JSMap.keys m1 ++ JSMap.keys m2.
Proof.
  unfold JSMap.keys. induction m1 as [|[[k v]|] m1 IH]; simpl; auto.
  now rewrite IH.
Qed.

Lemma jsmap_delete_middle {V} (pre suf : JSMap.t V) (k : string) (v : V) :
  JSMap.wf (pre ++ Some (k, v) :: suf) ->
  JSMap.delete (pre ++ Some (k, v) :: suf) k = pre ++ None :: suf.
Proof.
  unfold JSMap.wf. rewrite jsmap_keys_app. intros Hnd.
  assert (~ In k (JSMap.keys pre)) as Hk.
  { intros Hin. simpl in Hnd. apply NoDup_remove_2 in Hnd.
    apply Hnd. apply in_or_app. now left. }
  clear Hnd. induction pre as [|[[k0 v0]|] pre IH]; simpl.
  - now rewrite String.eqb_refl.
  - destruct (String.eqb k0 k) eqn:E.
    + apply String.eqb_eq in E. subst. exfalso. apply Hk. now left.
    + rewrite IH; auto. intros H. apply Hk. now right.
  - now rewrite IH.
Qed.

Lemma evict_unfold (e : string * DeviceConn) (w : World) :
  let d1 := fst (db_exec (UpdateDevice (fst e) (Some "offline") None) (db w)) in
  let d2 := fst (db_exec (InsertDeviceLog (offline_log (fst e))) d1) in
  let w1 := set_deviceConnections (JSMap.delete (deviceConnections w) (fst e))
              (set_db d2 w) in
  evict e w =
  match device (snd e) with
  | Some row =>
      set_sent (sent w ++ deliveries w (DEVICE_OFFLINE (fst e) (name row)))
        (set_published
           (published w ++ [(DEVICE_OFFLINE (fst e) (name row), tenant_id row)]) w1)
  | None => w1
  end.
Proof.
  unfold evict, run, bind, delete_device, modify.
  destruct (device (snd e)) as [row|]; [|reflexivity].
  rewrite broadcastToAdmins_exact. reflexivity.
Qed.

Lemma resume_tick_insert (now : Z) (i : nat) (k : string) (c : DeviceConn)
    (r : option DeviceRow) (w : World) :
  run (resume (KTickInsert now i k c) r) w
  = run (tick_loop now (S i))
        (run (delete_device k ;;
              match device c with
              | Some row => broadcastToAdmins (DEVICE_OFFLINE k (name row)) (tenant_id row)
              | None => ret tt
              end) w).
Proof.
  unfold run, resume, bind, delete_device, modify.
  destruct (device c) as [row|].
  - rewrite broadcastToAdmins_exact. reflexivity.
  - reflexivity.
Qed.

Lemma resume_tick_update (now : Z) (i : nat) (k : string) (c : DeviceConn)
    (r : option DeviceRow) (w : World) :
  run (resume (KTickUpdate now i k c) r) w
  = set_pending (pending w ++ [(InsertDeviceLog (offline_log k),
                                KTickInsert now i k c)]) w.
Proof. reflexivity. Qed.

Lemma length_snoc {A} (l : list A) (x : A) :
  List.length (l ++ [x]) = S (List.length l).
Proof. rewrite length_app. simpl. lia. Qed.

Lemma skipn_S_length_app {A} (pre : list A) (x : A) (suf : list A) :
  skipn (S (List.length pre)) (pre ++ x :: suf) = suf.
Proof. induction pre; simpl; auto. Qed.

Lemma tick_loop_skip (now : Z) (pre : JSMap.t DeviceConn)
    (slot : option (string * DeviceConn)) (rest : JSMap.t DeviceConn) (w : World) :
  deviceConnections w = pre ++ slot :: rest ->
  (slot = None \/ exists k c, slot = Some (k, c) /\ timed_out now c = false) ->
  tick_loop now (List.length pre) w = tick_loop now (S (List.length pre)) w.
Proof.
  intros Hdc Hs. rewrite !tick_loop_unfold, Hdc, skipn_length_app, skipn_S_length_app.
  destruct Hs as [->|[k [c [-> T]]]]; simpl; [|rewrite T]; reflexivity.
Qed.

Lemma cleanup_from (now : Z) (suf : JSMap.t DeviceConn) :
  forall (pre : JSMap.t DeviceConn) (w : World),
    deviceConnections w = pre ++ suf ->
    JSMap.wf (deviceConnections w) ->
    exec (repeat (Reply (List.length (pending w)))
                 (2 * List.length (filter (fun e => timed_out now (snd e))
                                          (JSMap.entries suf))))
         (run (tick_loop now (List.length pre)) w)
    = fold_left (fun w e => evict e w)
                (filter (fun e => timed_out now (snd e)) (JSMap.entries suf)) w.
Proof.
  induction suf as [|[[k c]|] rest IH]; intros pre w Hdc Hwf.
  - unfold run. rewrite tick_loop_unfold, Hdc, skipn_length_app. reflexivity.
  - simpl JSMap.entries. simpl filter.
    destruct (timed_out now c) eqn:T.
    + (* the entry has timed out *)
      unfold run at 1. rewrite tick_loop_unfold, Hdc, skipn_length_app.
      simpl scan. rewrite T.
      cbn [snd List.length]. replace (2 * S (List.length (filter (fun e => timed_out now (snd e)) (JSMap.entries rest))))%nat
        with (S (S (2 * List.length (filter (fun e => timed_out now (snd e)) (JSMap.entries rest))))) by lia.
      cbn [repeat]. rewrite exec_cons.
      rewrite (reply_last _ _ _ (pending w)) by reflexivity.
      rewrite resume_tick_update, exec_cons.
      rewrite (reply_last _ _ _ (pending w)) by reflexivity.
      rewrite resume_tick_insert.
      cbn [fold_left].
      match goal with
      | |- exec _ (run (tick_loop now _) ?w3) = _ =>
          assert (w3 = evict (k, c) w) as E3
      end.
      { reflexivity. }
      rewrite E3.
      assert (deviceConnections (evict (k, c) w) = (pre ++ [None]) ++ rest) as Hdc'.
      { rewrite evict_unfold. cbn [fst snd].
        destruct (device c); simpl; rewrite Hdc, jsmap_delete_middle;
          try (rewrite <- Hdc; exact Hwf); now rewrite <- app_assoc. }
      assert (pending (evict (k, c) w) = pending w) as Hp.
      { rewrite evict_unfold. cbn [fst snd]. destruct (device c); reflexivity. }
      specialize (IH (pre ++ [None]) (evict (k, c) w) Hdc').
      rewrite Hp, length_snoc in IH.
      apply IH.
      rewrite Hdc', <- app_assoc. simpl.
      rewrite <- (jsmap_delete_middle pre rest k c) by (rewrite <- Hdc; exact Hwf).
      apply jsmap_wf_delete. rewrite <- Hdc. exact Hwf.
    + (* the entry is within the threshold *)
      specialize (IH (pre ++ [Some (k, c)]) w).
      rewrite <- app_assoc in IH. specialize (IH Hdc Hwf).
      rewrite length_snoc in IH.
      rewrite <- IH. f_equal. unfold run.
      rewrite (tick_loop_skip now pre (Some (k, c)) rest w Hdc); auto.
      right. now exists k, c.
  - (* an emptied slot *)
    simpl JSMap.entries.
    specialize (IH (pre ++ [None]) w).
    rewrite <- app_assoc in IH. specialize (IH Hdc Hwf).
    rewrite length_snoc in IH.
    rewrite <- IH. f_equal. unfold run.
    rewrite (tick_loop_skip now pre None rest w Hdc); auto.
Qed.

Lemma jsmap_get_in_entries {V} (m : JSMap.t V) (k : string) (v : V) :
  JSMap.get m k = Some v -> In (k, v) (JSMap.entries m).
Proof.
  induction m as [|[[k0 v0]|] m IH]; simpl; try discriminate; auto.
  destruct (String.eqb k0 k) eqn:E.
  - apply String.eqb_eq in E. intros H. inversion H. subst. now left.
  - intros H. right. auto.
Qed.

Lemma jsmap_in_entries_get {V} (m : JSMap.t V) (k : string) (v : V) :
  JSMap.wf m -> In (k, v) (JSMap.entries m) -> JSMap.get m k = Some v.
Proof.
  unfold JSMap.wf, JSMap.keys.
  induction m as [|[[k0 v0]|] m IH]; simpl; try tauto.
  intros Hnd. inversion Hnd as [|x l Hx Hl]; subst.
  intros [H|H].
  - inversion H; subst. now rewrite String.eqb_refl.
  - destruct (String.eqb k0 k) eqn:E; auto.
    apply String.eqb_eq in E. subst. exfalso. apply Hx.
    apply (in_map fst) in H. exact H.
Qed.

Lemma jsmap_get_delete_all {V} (l : list (string * V)) :
  forall (m : JSMap.t V) (k : string),
    JSMap.wf m ->
    JSMap.get (fold_left (fun m e => JSMap.delete m (fst e)) l m) k
    = if existsb (fun e => String.eqb (fst e) k) l then None else JSMap.get m k.
Proof.
  induction l as [|[k0 v0] l IH]; intros m k Hwf; simpl; auto.
  rewrite IH by now apply jsmap_wf_delete.
  destruct (String.eqb k0 k) eqn:E; simpl.
  - apply String.eqb_eq in E. subst.
    rewrite jsmap_get_delete_eq by assumption. now destruct (existsb _ l).
  - apply String.eqb_neq in E. now rewrite jsmap_get_delete_ne.
Qed.

Lemma sweep_effect (l : list (string * DeviceConn)) :
  forall w : World,
    let w' := fold_left (fun w e => evict e w) l w in
    deviceConnections w'
      = fold_left (fun m e => JSMap.delete m (fst e)) l (deviceConnections w) /\
    published w' = published w ++ flat_map offline_event l /\
    device_logs (db w') = device_logs (db w) ++ map (fun e => offline_log (fst e)) l /\
    devices (db w') = map (mark_offline (map fst l)) (devices (db w)) /\
    pending w' = pending w /\
    adminConnections w' = adminConnections w /\
    sockets w' = sockets w /\
    clock w' = clock w.
Proof.
  induction l as [|e l IH]; intros w; simpl.
  - rewrite !app_nil_r. repeat split; auto.
    unfold mark_offline. simpl. now rewrite map_id.
  - destruct (IH (evict e w)) as (H1 & H2 & H3 & H4 & H5 & H6 & H7 & H8).
    rewrite H1, H2, H3, H4, H5, H6, H7, H8. clear.
    rewrite evict_unfold. unfold offline_event.
    destruct (device (snd e)) as [row|]; simpl;
      rewrite <- ?app_assoc; simpl; repeat split; auto;
      rewrite map_map; apply map_ext; intros r; unfold mark_offline; simpl;
      destruct (String.eqb (id r) (fst e)) eqn:E; simpl; auto;
      rewrite ?E; simpl; try rewrite E; auto;
      destruct (existsb (String.eqb (id r)) (map fst l)); auto.
Qed.

(** When the cleanup interval fires and the backing store answers each of
    its requests before any other event is processed, the cleanup removes
    from the registry exactly the entries whose lastSeen is more than five
    minutes old and keeps every other entry; for each removed entry, in
    registry order, it publishes one DEVICE_OFFLINE (when the entry carries
    its device row), appends one offline row to the device log and sets the
    status of the device's row to offline; observers, channels and the
    other outstanding requests are left as they were. *)
Theorem cleanup_uninterrupted (w : World) :
  JSMap.wf (deviceConnections w) ->
  let old := stale (clock w) (deviceConnections w) in
  let w' := exec (Tick :: repeat (Reply (List.length (pending w)))
                                (2 * List.length old)) w in
  (forall k c, JSMap.get (deviceConnections w) k = Some c ->
     JSMap.get (deviceConnections w') k
     = if timed_out (clock w) c then None else Some c) /\
  (forall k, JSMap.get (deviceConnections w) k = None ->
     JSMap.get (deviceConnections w') k = None) /\
  published w' = published w ++ flat_map offline_event old /\
  device_logs (db w') = device_logs (db w) ++ map (fun e => offline_log (fst e)) old /\
  devices (db w') = map (mark_offline (map fst old)) (devices (db w)) /\
  pending w' = pending w /\
  adminConnections w' = adminConnections w /\
  sockets w' = sockets w.
Proof.
  intros Hwf old w'.
  assert (w' = fold_left (fun w e => evict e w) old w) as E.
  { subst w'. rewrite exec_cons.
    change (step Tick w) with (run (tick_loop (clock w) (List.length (@nil (option (string * DeviceConn))))) w).
    apply (cleanup_from (clock w) (deviceConnections w) [] w); auto. }
  destruct (sweep_effect old w) as (H1 & H2 & H3 & H4 & H5 & H6 & H7 & _).
  fold w' in E. rewrite <- E in *. clear E.
  repeat split; auto.
  - intros k c G. rewrite H1, jsmap_get_delete_all, G by assumption.
    destruct (timed_out (clock w) c) eqn:T.
    + assert (existsb (fun e => String.eqb (fst e) k) old = true) as ->; auto.
      apply existsb_exists. exists (k, c). split; [|apply String.eqb_refl].
      apply filter_In. split; auto. now apply jsmap_get_in_entries.
    + destruct (existsb (fun e => String.eqb (fst e) k) old) eqn:X; auto.
      apply existsb_exists in X. destruct X as [[k' c'] [Hin Hk]].
      simpl in Hk. apply String.eqb_eq in Hk. subst k'.
      apply filter_In in Hin. destruct Hin as [Hin T']. simpl in T'.
      apply jsmap_in_entries_get in Hin; auto. congruence.
  - intros k G. rewrite H1, jsmap_get_delete_all, G by assumption.
    now destruct (existsb _ old).
Qed.

Lemma cleanup_uninterrupted_witness :
  let w := exec (device_online ++ [Elapse 300001]) (boot store) in
  let old := stale (clock w) (deviceConnections w) in
  let w' := exec (Tick :: repeat (Reply (List.length (pending w)))
                                (2 * List.length old)) w in
  JSMap.wf (deviceConnections w) /\
  (forall k c, JSMap.get (deviceConnections w) k = Some c ->
     JSMap.get (deviceConnections w') k
     = if timed_out (clock w) c then None else Some c) /\
  (forall k, JSMap.get (deviceConnections w) k = None ->
     JSMap.get (deviceConnections w') k = None) /\
  published w' = published w ++ flat_map offline_event old /\
  device_logs (db w') = device_logs (db w) ++ map (fun e => offline_log (fst e)) old /\
  devices (db w') = map (mark_offline (map fst old)) (devices (db w)) /\
  pending w' = pending w /\
  adminConnections w' = adminConnections w /\
  sockets w' = sockets w.
Proof.
  split.
  - vm_compute. apply nodup_one.
  - apply (cleanup_uninterrupted
             (exec (device_online ++ [Elapse 300001]) (boot store))).
    vm_compute. apply nodup_one.
Defined.

(** ** Invariants of every execution *)

(** In every state the process can reach, whatever the interleaving of
    frames, closes, cleanup runs and backing-store answers, each registry
    holds at most one entry per key. *)
Theorem registries_keep_unique_keys (d : DB) (es : list Event) (k : string) :
  (JSMap.count (deviceConnections (exec es (boot d))) k <= 1)%nat /\
  (JSMap.count (adminConnections (exec es (boot d))) k <= 1)%nat.
Proof.
  destruct (reachable_wf (exec es (boot d))) as [H1 H2]; [now exists d, es|].
  split; now apply jsmap_count_le_1.
Qed.

(** ** Frames that are dropped *)

(** A frame that does not parse, a frame of an unknown type and a
    DEVICE_STATUS frame without [stats] are dropped: nothing is written to
    any channel, nothing is asked of the backing store and the registries
    stay as they were. *)
Theorem malformed_frames_dropped (w : World) (s : WS) (type d st : string) :
  step (Message s Unparseable) w = w /\
  step (Message s (Unknown type)) w = w /\
  step (Message s (DEVICE_STATUS d st None)) w = w.
Proof. repeat split. Qed.

(** ** Registration, start to end *)

Lemma set_db_same (w : World) : set_db (db w) w = w.
Proof. now destruct w. Qed.

(** A DEVICE_REGISTER for a device id the backing store does not know (no
    row, or more than one) is answered with ERROR 'Device not found' on the
    sender's channel when that channel is open, and changes nothing else:
    the device is not registered and nothing is stored or broadcast. *)
Theorem unknown_device_gets_error (w : World) (s : WS) (d : string)
    (tok : option string) :
  single (filter (fun r => String.eqb (id r) d) (devices (db w))) = None ->
  exec [Message s (DEVICE_REGISTER d tok); Reply (List.length (pending w))] w
  = if isOPEN (readyState w s)
    then set_sent (sent w ++ [(s, ERROR "Device not found")]) w
    else w.
Proof.
  intros Hrow. rewrite exec_cons, step_register_message.
  rewrite exec_cons, (reply_last _ (SelectDevice d) (KRegSelect s d) (pending w))
    by reflexivity.
  replace (db_exec (SelectDevice d) _) with (db w, @None DeviceRow)
    by (simpl; now rewrite Hrow).
  cbn [fst snd exec fold_left].
  unfold run, resume, try_, ws_send.
  replace (readyState (set_db (db w) (set_pending (pending w)
             (set_pending (pending w ++ [(SelectDevice d, KRegSelect s d)]) w))) s)
    with (readyState w s) by reflexivity.
  destruct w; destruct (lookup_socket sockets0 s) eqn:E; unfold readyState; simpl;
    rewrite E; reflexivity.
Qed.

Lemma unknown_device_gets_error_witness :
  let w := exec [Connection 2] (boot store) in
  exec [Message 2 (DEVICE_REGISTER "d9" None); Reply (List.length (pending w))] w
  = if isOPEN (readyState w 2)
    then set_sent (sent w ++ [(2, ERROR "Device not found")]) w
    else w.
Proof.
  apply (unknown_device_gets_error (exec [Connection 2] (boot store)) 2 "d9" None).
  vm_compute. reflexivity.
Defined.

Lemma resume_reg_insert_exact (w : World) (s : WS) (d : string) (row : DeviceRow)
    (r : option DeviceRow) :
  readyState w s <> CONNECTING ->
  run (resume (KRegInsert s d row) r) w
  = set_sent (sent w ++ (if isOPEN (readyState w s) then [(s, REGISTERED d)] else [])
                     ++ deliveries w (DEVICE_ONLINE d (name row)))
      (set_published (published w ++ [(DEVICE_ONLINE d (name row), tenant_id row)]) w).
Proof.
  intros Hst. unfold run, resume, try_, bind. unfold ws_send.
  destruct (readyState w s) eqn:E; try congruence;
    rewrite broadcastToAdmins_exact; simpl; try reflexivity.
  unfold set_sent, set_published; simpl. now rewrite <- app_assoc.
Qed.

(** When the backing store knows the device and answers the three requests
    of the registration before any other event is processed: the registry
    holds the new connection under the device id, the device's row is
    online with last_seen the time of the registration, one online row is
    appended to the device log, the sender is told REGISTERED (if its
    channel is open) and then DEVICE_ONLINE goes to every administrator
    whose channel is open. *)
Theorem registration_effect (w : World) (s : WS) (d : string)
    (tok : option string) (row : DeviceRow) :
  single (filter (fun r => String.eqb (id r) d) (devices (db w))) = Some row ->
  readyState w s <> CONNECTING ->
  let w' := exec [Message s (DEVICE_REGISTER d tok); Reply (List.length (pending w));
                  Reply (List.length (pending w)); Reply (List.length (pending w))] w in
  JSMap.get (deviceConnections w') d
    = Some {| ws := s; deviceId := d; lastSeen := clock w; device := Some row |} /\
  devices (db w') = update_rows d (Some "online") (Some (clock w)) (devices (db w)) /\
  device_logs (db w') = device_logs (db w) ++ [online_log d] /\
  sent w' = sent w ++ (if isOPEN (readyState w s) then [(s, REGISTERED d)] else [])
                   ++ deliveries w (DEVICE_ONLINE d (name row)) /\
  published w' = published w ++ [(DEVICE_ONLINE d (name row), tenant_id row)] /\
  pending w' = pending w /\
  sockets w' = sockets w.
Proof.
  intros Hrow Hst w'. subst w'.
  rewrite exec_cons, step_register_message.
  rewrite exec_cons, (reply_last _ (SelectDevice d) (KRegSelect s d) (pending w))
    by reflexivity.
  replace (db_exec (SelectDevice d) _) with (db w, Some row)
    by (simpl; now rewrite Hrow).
  cbn [fst snd]. rewrite resume_reg_select_found.
  rewrite exec_cons, (reply_last _ _ _ (pending w)) by reflexivity.
  rewrite resume_reg_update.
  rewrite exec_cons, (reply_last _ _ _ (pending w)) by reflexivity.
  rewrite resume_reg_insert_exact by exact Hst.
  simpl. repeat split; auto. apply jsmap_get_set_eq.
Qed.

Lemma registration_effect_witness :
  let w := exec [Connection 2] (boot store) in
  let w' := exec [Message 2 (DEVICE_REGISTER "d1" None); Reply (List.length (pending w));
                  Reply (List.length (pending w)); Reply (List.length (pending w))] w in
  JSMap.get (deviceConnections w') "d1"
    = Some {| ws := 2; deviceId := "d1"; lastSeen := clock w; device := Some lobby |} /\
  devices (db w') = update_rows "d1" (Some "online") (Some (clock w)) (devices (db w)) /\
  device_logs (db w') = device_logs (db w) ++ [online_log "d1"] /\
  sent w' = sent w ++ (if isOPEN (readyState w 2) then [(2, REGISTERED "d1")] else [])
                   ++ deliveries w (DEVICE_ONLINE "d1" (name lobby)) /\
  published w' = published w ++ [(DEVICE_ONLINE "d1" (name lobby), tenant_id lobby)] /\
  pending w' = pending w /\
  sockets w' = sockets w.
Proof.
  apply (registration_effect (exec [Connection 2] (boot store)) 2 "d1" None lobby).
  - vm_compute. reflexivity.
  - vm_compute. discriminate.
Defined.

(** ** Heartbeat, start to end *)

(** A HEARTBEAT that names a registered device id, on whichever channel it
    arrives, sets the lastSeen of that entry to the current time at once;
    when the backing store answers, the last_seen of the device's row is
    that time as well and HEARTBEAT_ACK is written to the channel the
    frame came from, if it is open.  Nothing is broadcast. *)
Theorem heartbeat_effect (w : World) (s : WS) (d : string) (c : DeviceConn) :
  JSMap.get (deviceConnections w) d = Some c ->
  let w' := exec [Message s (HEARTBEAT d); Reply (List.length (pending w))] w in
  JSMap.get (deviceConnections w') d = Some (with_lastSeen (clock w) c) /\
  devices (db w') = update_rows d None (Some (clock w)) (devices (db w)) /\
  sent w' = sent w ++ (if isOPEN (readyState w s) then [(s, HEARTBEAT_ACK)] else []) /\
  published w' = published w /\
  pending w' = pending w.
Proof.
  intros G w'. subst w'.
  assert (step (Message s (HEARTBEAT d)) w
          = set_pending (pending w ++ [(UpdateDevice d None (Some (clock w)), KHbUpdate s)])
              (set_deviceConnections
                 (JSMap.set (deviceConnections w) d (with_lastSeen (clock w) c)) w)) as E.
  { unfold step, run, handle, onMessage, handleHeartbeat, try_, bind, gets.
    rewrite G. reflexivity. }
  rewrite exec_cons, E.
  rewrite exec_cons, (reply_last _ _ _ (pending w)) by reflexivity.
  cbn [exec fold_left]. unfold run, resume, try_, ws_send.
  match goal with
  | |- context [readyState ?w0 s] =>
      replace (readyState w0 s) with (readyState w s) by reflexivity
  end.
  destruct (readyState w s) eqn:O; simpl; rewrite ?app_nil_r;
    repeat split; auto; apply jsmap_get_set_eq.
Qed.

Lemma heartbeat_effect_witness :
  let w := exec (device_online ++ [Elapse 1000]) (boot store) in
  let c := {| ws := 2; deviceId := "d1"; lastSeen := 0; device := Some lobby |} in
  let w' := exec [Message 7 (HEARTBEAT "d1"); Reply (List.length (pending w))] w in
  JSMap.get (deviceConnections w') "d1" = Some (with_lastSeen (clock w) c) /\
  devices (db w') = update_rows "d1" None (Some (clock w)) (devices (db w)) /\
  sent w' = sent w ++ (if isOPEN (readyState w 7) then [(7, HEARTBEAT_ACK)] else []) /\
  published w' = published w /\
  pending w' = pending w.
Proof.
  apply (heartbeat_effect (exec (device_online ++ [Elapse 1000]) (boot store)) 7 "d1"
           {| ws := 2; deviceId := "d1"; lastSeen := 0; device := Some lobby |}).
  vm_compute. reflexivity.
Defined.

(** ** Dispatch after registration and after close *)

Lemma lookup_put_socket (l : list (WS * ReadyState)) (s : WS) (st : ReadyState) :
  lookup_socket (put_socket l s st) s = st.
Proof.
  induction l as [|[s' st'] l IH]; simpl.
  - now rewrite Nat.eqb_refl.
  - destruct (Nat.eqb s' s) eqn:E; simpl.
    + now rewrite Nat.eqb_refl.
    + now rewrite E.
Qed.

Lemma close_sockets (s : WS) (w : World) :
  sockets (step (Close s) w) = put_socket (sockets w) s CLOSED.
Proof.
  unfold step, run, handle, onClose, set_readyState, bind, modify, gets. simpl.
  destruct (JSMap.find (fun c => Nat.eqb (ws c) s) (deviceConnections w))
    as [[key c]|]; simpl;
    destruct (JSMap.find (fun c => Nat.eqb (admin_ws c) s) (adminConnections w))
    as [[key' c']|]; reflexivity.
Qed.

(** Once a device has registered (the backing store knows it and has
    answered the three requests) on an open channel, a command for its id
    is delivered: broadcastToDevice returns true and writes exactly that
    command to the channel the registration came from. *)
Theorem dispatch_after_registration (w : World) (s : WS) (d : string)
    (tok : option string) (row : DeviceRow) (m : ServerMsg) :
  single (filter (fun r => String.eqb (id r) d) (devices (db w))) = Some row ->
  readyState w s = OPEN ->
  let w' := exec [Message s (DEVICE_REGISTER d tok); Reply (List.length (pending w));
                  Reply (List.length (pending w)); Reply (List.length (pending w))] w in
  broadcastToDevice d m w' = Ok true (set_sent (sent w' ++ [(s, m)]) w').
Proof.
  intros Hrow Ho w'.
  assert (readyState w s <> CONNECTING) as Hst by congruence.
  destruct (registration_effect w s d tok row Hrow Hst) as (G & _ & _ & _ & _ & _ & Hs).
  fold w' in G, Hs.
  rewrite broadcastToDevice_cases, G. simpl.
  unfold readyState in *. rewrite Hs, Ho. reflexivity.
Qed.

Lemma dispatch_after_registration_witness :
  let w := exec [Connection 2] (boot store) in
  let w' := exec [Message 2 (DEVICE_REGISTER "d1" None); Reply (List.length (pending w));
                  Reply (List.length (pending w)); Reply (List.length (pending w))] w in
  broadcastToDevice "d1" (BLOCK_DEVICE "unpaid") w'
  = Ok true (set_sent (sent w' ++ [(2, BLOCK_DEVICE "unpaid")]) w').
Proof.
  apply (dispatch_after_registration (exec [Connection 2] (boot store)) 2 "d1" None lobby).
  - vm_compute. reflexivity.
  - vm_compute. reflexivity.
Defined.

(** After the close event of the channel of a registered device has been
    processed, a command for that device id is not delivered and nothing
    is written, whether or not the close handler found the entry. *)
Theorem no_dispatch_after_close (w : World) (d : string) (c : DeviceConn)
    (m : ServerMsg) :
  JSMap.wf (deviceConnections w) ->
  JSMap.get (deviceConnections w) d = Some c ->
  broadcastToDevice d m (step (Close (ws c)) w) = Ok false (step (Close (ws c)) w).
Proof.
  intros Hwf G. rewrite broadcastToDevice_cases.
  destruct (JSMap.get (deviceConnections (step (Close (ws c)) w)) d) as [c1|] eqn:G1;
    auto.
  rewrite close_devices in G1. apply close_in_get in G1; auto.
  assert (c1 = c) by congruence. subst c1.
  unfold readyState. rewrite close_sockets, lookup_put_socket. reflexivity.
Qed.

Lemma no_dispatch_after_close_witness :
  let w := exec device_online (boot store) in
  let c := {| ws := 2; deviceId := "d1"; lastSeen := 0; device := Some lobby |} in
  broadcastToDevice "d1" UNBLOCK_DEVICE (step (Close (ws c)) w)
  = Ok false (step (Close (ws c)) w).
Proof.
  apply (no_dispatch_after_close (exec device_online (boot store)) "d1"
           {| ws := 2; deviceId := "d1"; lastSeen := 0; device := Some lobby |}).
  - vm_compute. apply nodup_one.
  - vm_compute. reflexivity.
Defined.

(** ** What a close removes *)

Lemma jsmap_find_in_keys {V} (p : V -> bool) (m : JSMap.t V) (k : string) (v : V) :
  JSMap.find p m = Some (k, v) -> In k (JSMap.keys m).
Proof.
  unfold JSMap.keys.
  induction m as [|[[k0 v0]|] m IH]; simpl; try discriminate; auto.
  destruct (p v0).
  - intros H. inversion H. now left.
  - intros H. right. auto.
Qed.

Lemma close_in_entries {V} (chan : V -> WS) (s : WS) (m : JSMap.t V) :
  JSMap.wf m ->
  JSMap.entries (close_in chan s m)
  = remove_first (fun e => Nat.eqb (chan (snd e)) s) (JSMap.entries m).
Proof.
  unfold close_in, JSMap.wf, JSMap.keys.
  induction m as [|[[k v]|] m IH]; simpl; auto.
  - intros Hnd. inversion Hnd as [|x l Hx Hl]; subst.
    destruct (Nat.eqb (chan v) s) eqn:P.
    + simpl. now rewrite String.eqb_refl.
    + specialize (IH Hl).
      destruct (JSMap.find (fun c => Nat.eqb (chan c) s) m) as [[key v']|] eqn:F.
      * simpl. destruct (String.eqb k key) eqn:E.
        -- apply String.eqb_eq in E. subst key.
           apply jsmap_find_in_keys in F. contradiction.
        -- cbn [JSMap.entries]. f_equal. exact IH.
      * cbn [JSMap.entries]. f_equal. exact IH.
  - intros Hnd. specialize (IH Hnd).
    destruct (JSMap.find (fun c => Nat.eqb (chan c) s) m) as [[key v']|]; exact IH.
Qed.

(** Processing the close of a channel removes, from each registry, the
    first entry (in insertion order) whose channel is the closing one and
    nothing else: every other entry stays, in the same order.  A channel
    that registered under two ids therefore leaves its second entry
    behind. *)
Theorem close_removes_first_entry_only (w : World) (s : WS) :
  JSMap.wf (deviceConnections w) -> JSMap.wf (adminConnections w) ->
  JSMap.entries (deviceConnections (step (Close s) w))
    = remove_first (fun e => Nat.eqb (ws (snd e)) s)
                   (JSMap.entries (deviceConnections w)) /\
  JSMap.entries (adminConnections (step (Close s) w))
    = remove_first (fun e => Nat.eqb (admin_ws (snd e)) s)
                   (JSMap.entries (adminConnections w)).
Proof.
  intros H1 H2. rewrite close_devices, close_admins.
  split; now apply close_in_entries.
Qed.

Lemma close_removes_first_entry_only_witness :
  let w := do_ops [OpRegister 2 "d1" lobby; OpRegister 2 "d2" lobby] (boot store) in
  JSMap.keys (deviceConnections w) = ["d1"; "d2"] /\
  JSMap.keys (deviceConnections (step (Close 2) w)) = ["d2"] /\
  JSMap.entries (deviceConnections (step (Close 2) w))
    = remove_first (fun e => Nat.eqb (ws (snd e)) 2)
                   (JSMap.entries (deviceConnections w)).
Proof.
  split; [vm_compute; reflexivity|]. split; [vm_compute; reflexivity|].
  apply (close_removes_first_entry_only
           (do_ops [OpRegister 2 "d1" lobby; OpRegister 2 "d2" lobby] (boot store)) 2).
  - vm_compute. constructor; [|apply nodup_one].
    intros [H|[]]. discriminate H.
  - vm_compute. constructor.
Defined.

(** ** An administrator who registers again *)

Lemma jsmap_in_values {V} (m : JSMap.t V) (v : V) :
  JSMap.wf m -> In v (JSMap.values m) -> exists k, JSMap.get m k = Some v.
Proof.
  intros Hwf Hin. unfold JSMap.values in Hin.
  apply in_map_iff in Hin. destruct Hin as [[k v'] [E Hin]]. simpl in E. subst v'.
  exists k. now apply jsmap_in_entries_get.
Qed.

(** The observer registry is keyed by user id: when a user who is
    registered on one channel sends ADMIN_REGISTER on another, the entry is
    replaced, and from then on no broadcast is written to the earlier
    channel (unless another user id is registered on it). *)
Theorem admin_reregistration_supersedes (w : World) (s : WS) (u : string)
    (tok : option string) (c0 : AdminConn) (m : ServerMsg) :
  JSMap.wf (adminConnections w) ->
  JSMap.get (adminConnections w) u = Some c0 ->
  admin_ws c0 <> s ->
  (forall k c, JSMap.get (adminConnections w) k = Some c ->
               admin_ws c = admin_ws c0 -> k = u) ->
  let w' := step (Message s (ADMIN_REGISTER u tok)) w in
  JSMap.get (adminConnections w') u
    = Some {| admin_ws := s; userId := u; admin_lastSeen := clock w |} /\
  ~ In (admin_ws c0, m) (deliveries w' m).
Proof.
  intros Hwf G Hne Hu w'.
  assert (adminConnections w'
          = JSMap.set (adminConnections w) u
              {| admin_ws := s; userId := u; admin_lastSeen := clock w |}) as E.
  { subst w'. unfold step, run, handle, onMessage, handleAdminRegister, try_, bind,
      newDate, gets, put_admin, modify, ws_send. simpl.
    unfold readyState. simpl. destruct (lookup_socket (sockets w) s); reflexivity. }
  split.
  - rewrite E. apply jsmap_get_set_eq.
  - unfold deliveries. rewrite E. intros Hin.
    apply in_map_iff in Hin. destruct Hin as [c [Hc Hin]].
    apply filter_In in Hin. destruct Hin as [Hin _].
    apply jsmap_in_values in Hin; [|now apply jsmap_wf_set].
    destruct Hin as [k Hk]. inversion Hc as [Hc'].
    destruct (String.eqb u k) eqn:Ek.
    + apply String.eqb_eq in Ek. subst k. rewrite jsmap_get_set_eq in Hk.
      inversion Hk. subst c. simpl in Hc'. congruence.
    + apply String.eqb_neq in Ek. rewrite jsmap_get_set_ne in Hk by assumption.
      apply Ek. symmetry. now apply (Hu k c).
Qed.

Lemma admin_reregistration_supersedes_witness :
  let w := exec [Connection 1; Message 1 (ADMIN_REGISTER "uA" None); Connection 3]
                (boot store) in
  let w' := step (Message 3 (ADMIN_REGISTER "uA" None)) w in
  JSMap.get (adminConnections w') "uA"
    = Some {| admin_ws := 3; userId := "uA"; admin_lastSeen := clock w |} /\
  ~ In (1, UNBLOCK_DEVICE) (deliveries w' UNBLOCK_DEVICE).
Proof.
  apply (admin_reregistration_supersedes
           (exec [Connection 1; Message 1 (ADMIN_REGISTER "uA" None); Connection 3]
                 (boot store))
           3 "uA" None {| admin_ws := 1; userId := "uA"; admin_lastSeen := 0 |}
           UNBLOCK_DEVICE).
  - vm_compute. apply nodup_one.
  - vm_compute. reflexivity.
  - vm_compute. lia.
  - intros k c. vm_compute.
    destruct k as [|a k]; [discriminate|].
    destruct a as [[] [] [] [] [] [] [] []]; try discriminate.
    destruct k as [|a k]; [discriminate|].
    destruct a as [[] [] [] [] [] [] [] []]; try discriminate.
    destruct k as [|a k]; [reflexivity|discriminate].
Defined.

(** ** How an event moves the registry of devices *)

Ltac sdc :=
  try solve [ unfold same_devices_clock; simpl; intros; auto; tauto
            | unfold same_devices_clock; intros; intuition congruence ].

Lemma sdc_refl (w : World) : same_devices_clock w w.
Proof. now split. Qed.

Lemma sdc_trans (a b c : World) :
  same_devices_clock a b -> same_devices_clock b c -> same_devices_clock a c.
Proof. unfold same_devices_clock. intros [? ?] [? ?]. split; congruence. Qed.

Lemma registry_move_ext (w w0 : World) (m : JSMap.t DeviceConn) :
  same_devices_clock w w0 -> registry_move w0 m -> registry_move w m.
Proof.
  intros [Hd Hc] H. destruct H as [|s k row|k c G|k]; rewrite ?Hd, ?Hc.
  - constructor.
  - constructor.
  - rewrite Hd in G. now constructor.
  - constructor.
Qed.

Lemma sdc_ws_send (s : WS) (m : ServerMsg) (w : World) :
  same_devices_clock w (run (ws_send s m) w).
Proof. apply respects_run, respects_ws_send; sdc. Qed.

Lemma sdc_broadcast (m : ServerMsg) (t : option string) (w : World) :
  same_devices_clock w (run (broadcastToAdmins m t) w).
Proof.
  unfold run. rewrite broadcastToAdmins_exact. now split.
Qed.

Lemma sdc_tick_loop (now : Z) (i : nat) (w : World) :
  same_devices_clock w (run (tick_loop now i) w).
Proof.
  unfold run. rewrite tick_loop_unfold.
  destruct (scan _ _ _) as [[[j d] c]|]; now split.
Qed.

Lemma resume_registry_move (k : Cont) (r : option DeviceRow) (w : World) :
  registry_move w (deviceConnections (run (resume k r) w)) /\
  clock (run (resume k r) w) = clock w.
Proof.
  destruct (telemetry_cont k) eqn:T.
  { assert (same_devices_clock w (run (resume k r) w)) as [Hd Hc].
    { apply respects_run, respects_telemetry_cont; auto; sdc. }
    rewrite Hd, Hc. split; [constructor|reflexivity]. }
  destruct k; simpl in T; try discriminate.
  - destruct r as [row|].
    + rewrite resume_reg_select_found. simpl. split; [constructor|reflexivity].
    + destruct (sdc_ws_send w0 (ERROR "Device not found") w) as [Hd Hc].
      change (run (resume (KRegSelect w0 deviceId0) None) w)
        with (run (try_ (ws_send w0 (ERROR "Device not found"))) w).
      unfold run, try_ in *. destruct (ws_send _ _ w); rewrite Hd, Hc;
        split; try constructor; reflexivity.
  - rewrite resume_reg_update. simpl. split; [constructor|reflexivity].
  - assert (same_devices_clock w (run (resume (KRegInsert w0 deviceId0 device0) r) w))
      as [Hd Hc].
    { apply respects_run. simpl. apply respects_try.
      apply respects_bind; sdc; [apply respects_ws_send; sdc|].
      intros _. apply respects_broadcastToAdmins; sdc. }
    rewrite Hd, Hc. split; [constructor|reflexivity].
  - assert (same_devices_clock w (run (resume (KHbUpdate w0) r) w)) as [Hd Hc].
    { apply respects_run. simpl. apply respects_try.
      apply respects_ws_send; sdc. }
    rewrite Hd, Hc. split; [constructor|reflexivity].
  - rewrite resume_tick_update. simpl. split; [constructor|reflexivity].
  - rewrite resume_tick_insert.
    set (w1 := run (delete_device deviceId0 ;; _) w).
    assert (deviceConnections w1 = JSMap.delete (deviceConnections w) deviceId0
            /\ clock w1 = clock w) as [Hd1 Hc1].
    { subst w1. unfold run, bind, delete_device, modify.
      destruct (device connection) as [row|].
      - rewrite broadcastToAdmins_exact. now split.
      - now split. }
    destruct (sdc_tick_loop now (S i) w1) as [Hd Hc].
    rewrite Hd, Hc, Hd1, Hc1. split; [constructor|reflexivity].
Qed.

Lemma close_clock (s : WS) (w : World) : clock (step (Close s) w) = clock w.
Proof.
  unfold step, run, handle, onClose, set_readyState, bind, modify, gets. simpl.
  destruct (JSMap.find (fun c => Nat.eqb (ws c) s) (deviceConnections w))
    as [[key c]|]; simpl;
    destruct (JSMap.find (fun c => Nat.eqb (admin_ws c) s) (adminConnections w))
    as [[key' c']|]; reflexivity.
Qed.

Lemma step_registry_move (e : Event) (w : World) :
  registry_move w (deviceConnections (step e w)) /\
  (clock w <= clock (step e w))%Z.
Proof.
  destruct e as [s|s data|s| |n|dt|s st|d m].
  - (* Connection *)
    assert (same_devices_clock w (step (Connection s) w)) as [Hd Hc].
    { unfold step. apply respects_run. simpl.
      apply respects_bind; sdc; [apply respects_modify; sdc|].
      intros _. apply respects_ws_send; sdc. }
    rewrite Hd, Hc. split; [constructor|lia].
  - (* Message *)
    destruct (telemetry data) eqn:T.
    { assert (same_devices_clock w (step (Message s data) w)) as [Hd Hc].
      { unfold step. apply respects_run. simpl.
        apply respects_telemetry; auto; sdc. }
      rewrite Hd, Hc. split; [constructor|lia]. }
    destruct data; simpl in T; try discriminate.
    + rewrite step_register_message. split; [exact (move_none w)|simpl; lia].
    + assert (same_devices_clock w (step (Message s (ADMIN_REGISTER userId0 token)) w))
        as [Hd Hc].
      { unfold step. apply respects_run. simpl. unfold handleAdminRegister.
        apply respects_try, respects_try.
        apply respects_bind; sdc; [apply respects_newDate; sdc|]. intros now.
        apply respects_bind; sdc; [apply respects_modify; sdc|]. intros _.
        apply respects_ws_send; sdc. }
      rewrite Hd, Hc. split; [constructor|lia].
    + destruct (JSMap.get (deviceConnections w) deviceId0) as [c|] eqn:G.
      * assert (step (Message s (HEARTBEAT deviceId0)) w
                = set_pending (pending w ++ [(UpdateDevice deviceId0 None (Some (clock w)),
                                              KHbUpdate s)])
                    (set_deviceConnections
                       (JSMap.set (deviceConnections w) deviceId0
                                  (with_lastSeen (clock w) c)) w)) as E.
        { unfold step, run, handle, onMessage, handleHeartbeat, try_, bind, gets.
          rewrite G. reflexivity. }
        rewrite E. simpl. split; [now constructor|lia].
      * rewrite heartbeat_unregistered_noop by assumption. split; [constructor|lia].
    + replace (step _ w) with w by reflexivity. split; [constructor|lia].
    + replace (step _ w) with w by reflexivity. split; [constructor|lia].
  - (* Close *)
    rewrite close_devices, close_clock. split; [|lia].
    unfold close_in. destruct (JSMap.find _ _) as [[key c]|]; constructor.
  - (* Tick *)
    destruct (sdc_tick_loop (clock w) 0 w) as [Hd Hc].
    change (step Tick w) with (run (tick_loop (clock w) 0) w).
    rewrite Hd, Hc. split; [constructor|lia].
  - (* Reply *)
    unfold step, run, handle, reply.
    destruct (nth_error (pending w) n) as [[q k]|]; [|split; [constructor|lia]].
    destruct (db_exec q (db w)) as [d r].
    pose proof (resume_registry_move k r
                  (set_db d (set_pending (remove_nth n (pending w)) w))) as [Hm Hc].
    unfold run in Hm, Hc. simpl in Hc.
    destruct (resume k r _); rewrite Hc; (split; [|lia]);
      (eapply registry_move_ext; [|exact Hm]); now split.
  - (* Elapse *)
    split; [exact (move_none w)|simpl; lia].
  - (* Transport *)
    split; [exact (move_none w)|simpl; lia].
  - (* Dispatch *)
    unfold step, run, handle, bind. rewrite broadcastToDevice_cases.
    destruct (JSMap.get (deviceConnections w) d) as [c|];
      [destruct (isOPEN (readyState w (ws c)))|]; simpl;
      (split; [exact (move_none w)|lia]).
Qed.

(** ** What the entries of the registry always satisfy *)

Lemma registry_ok_step (e : Event) (w : World) :
  registry_ok w -> registry_ok (step e w).
Proof.
  intros [Hwf Hok]. destruct (step_registry_move e w) as [Hm Hc].
  unfold registry_ok.
  inversion Hm as [E|s k row E|k c G E|k E]; clear Hm.
  - split; [assumption|]. intros k c G. destruct (Hok k c G) as (A & B & C).
    repeat split; auto. lia.
  - split; [now apply jsmap_wf_set|]. intros k' c'.
    destruct (String.eqb k k') eqn:Ek.
    + apply String.eqb_eq in Ek. subst k'. rewrite jsmap_get_set_eq.
      intros H. inversion H. repeat split; simpl; eauto.
    + apply String.eqb_neq in Ek. rewrite jsmap_get_set_ne by assumption.
      intros G. destruct (Hok k' c' G) as (A & B & C). repeat split; auto. lia.
  - split; [now apply jsmap_wf_set|]. intros k' c'.
    destruct (String.eqb k k') eqn:Ek.
    + apply String.eqb_eq in Ek. subst k'. rewrite jsmap_get_set_eq.
      intros H. inversion H. destruct (Hok k c G) as (A & B & C).
      repeat split; simpl; auto.
    + apply String.eqb_neq in Ek. rewrite jsmap_get_set_ne by assumption.
      intros G'. destruct (Hok k' c' G') as (A & B & C). repeat split; auto. lia.
  - split; [now apply jsmap_wf_delete|]. intros k' c'.
    destruct (String.eqb k k') eqn:Ek.
    + apply String.eqb_eq in Ek. subst k'.
      rewrite jsmap_get_delete_eq by assumption. discriminate.
    + apply String.eqb_neq in Ek. rewrite jsmap_get_delete_ne by assumption.
      intros G'. destruct (Hok k' c' G') as (A & B & C). repeat split; auto. lia.
Qed.

Lemma registry_ok_exec (es : list Event) (w : World) :
  registry_ok w -> registry_ok (exec es w).
Proof.
  revert w. induction es as [|e es IH]; intros w H; simpl; auto.
  apply IH. now apply registry_ok_step.
Qed.

Lemma registry_ok_boot (d : DB) : registry_ok (boot d).
Proof. split; [constructor|]. intros k c H. discriminate H. Qed.

(** In every state the process can reach, an entry of the device registry
    is stored under its own device id and carries the device row read at
    its registration, so the cleanup's test of [connection.device] never
    fails. *)
Theorem registry_entries_well_formed (d : DB) (es : list Event) (k : string)
    (c : DeviceConn) :
  JSMap.get (deviceConnections (exec es (boot d))) k = Some c ->
  deviceId c = k /\ exists row, device c = Some row.
Proof.
  intros G. destruct (registry_ok_exec es (boot d) (registry_ok_boot d)) as [_ H].
  destruct (H k c G) as (A & B & _). split; assumption.
Qed.

Lemma registry_entries_well_formed_witness :
  let c := {| ws := 2; deviceId := "d1"; lastSeen := 0; device := Some lobby |} in
  deviceId c = "d1" /\ exists row, device c = Some row.
Proof.
  apply (registry_entries_well_formed store (device_online ++ [Elapse 1000]) "d1"
           {| ws := 2; deviceId := "d1"; lastSeen := 0; device := Some lobby |}).
  vm_compute. reflexivity.
Defined.

(** As long as the clock does not run backwards, the lastSeen stored under
    a device id never decreases: whatever single event is processed in a
    reachable state, if the id has an entry before and after, the lastSeen
    after is at least the lastSeen before. *)
Theorem lastSeen_never_decreases (d : DB) (es : list Event) (e : Event)
    (k : string) (c c' : DeviceConn) :
  JSMap.get (deviceConnections (exec es (boot d))) k = Some c ->
  JSMap.get (deviceConnections (step e (exec es (boot d)))) k = Some c' ->
  (lastSeen c <= lastSeen c')%Z.
Proof.
  intros G G'.
  destruct (registry_ok_exec es (boot d) (registry_ok_boot d)) as [Hwf Hok].
  destruct (Hok k c G) as (_ & _ & Hle).
  destruct (step_registry_move e (exec es (boot d))) as [Hm _].
  set (w := exec es (boot d)) in *.
  inversion Hm as [E|s k0 row E|k0 c0 G0 E|k0 E]; clear Hm; rewrite <- E in G'.
  - assert (c' = c) by congruence. subst. lia.
  - destruct (String.eqb k0 k) eqn:Ek.
    + apply String.eqb_eq in Ek. subst k0. rewrite jsmap_get_set_eq in G'.
      inversion G'. simpl. lia.
    + apply String.eqb_neq in Ek. rewrite jsmap_get_set_ne in G' by assumption.
      assert (c' = c) by congruence. subst. lia.
  - destruct (String.eqb k0 k) eqn:Ek.
    + apply String.eqb_eq in Ek. subst k0. rewrite jsmap_get_set_eq in G'.
      inversion G'. simpl. lia.
    + apply String.eqb_neq in Ek. rewrite jsmap_get_set_ne in G' by assumption.
      assert (c' = c) by congruence. subst. lia.
  - destruct (String.eqb k0 k) eqn:Ek.
    + apply String.eqb_eq in Ek. subst k0.
      rewrite jsmap_get_delete_eq in G' by assumption. discriminate.
    + apply String.eqb_neq in Ek. rewrite jsmap_get_delete_ne in G' by assumption.
      assert (c' = c) by congruence. subst. lia.
Qed.

Lemma lastSeen_never_decreases_witness :
  let c := {| ws := 2; deviceId := "d1"; lastSeen := 0; device := Some lobby |} in
  (lastSeen c <= lastSeen (with_lastSeen 1000 c))%Z.
Proof.
  apply (lastSeen_never_decreases store (device_online ++ [Elapse 1000])
           (Message 2 (HEARTBEAT "d1")) "d1").
  - vm_compute. reflexivity.
  - vm_compute. reflexivity.
Defined.

(** ** The simplified variant *)

Lemma simplified_broadcast_sent (m : ServerMsg) (st : Simplified.State) :
  Simplified.sent (Simplified.broadcastToAdmin m st)
  = Simplified.sent st
    ++ map (fun c => (fst c, m)) (filter (fun c => isOPEN (snd c)) (Simplified.clients st)).
Proof.
  unfold Simplified.broadcastToAdmin.
  generalize (Simplified.clients st) as l. intros l. revert st.
  induction l as [|c l IH]; intros st; simpl.
  - now rewrite app_nil_r.
  - destruct (isOPEN (snd c)); simpl; rewrite IH; simpl; auto.
    now rewrite <- app_assoc.
Qed.

(** In the simplified variant an event for the administrators is written
    to every client of the server whose channel is open, devices included,
    once per client and in the order of the client list, and the registry
    and the clients are left as they were; in particular a device that
    registers on an open channel receives its own online event. *)
Theorem simplified_broadcast_reaches_all_open_clients (st : Simplified.State)
    (m : ServerMsg) (s : WS) (d : string) :
  In (s, OPEN) (Simplified.clients st) ->
  Simplified.sent (Simplified.broadcastToAdmin m st)
    = Simplified.sent st
      ++ map (fun c => (fst c, m))
             (filter (fun c => isOPEN (snd c)) (Simplified.clients st)) /\
  Simplified.deviceConnections (Simplified.broadcastToAdmin m st)
    = Simplified.deviceConnections st /\
  Simplified.clients (Simplified.broadcastToAdmin m st) = Simplified.clients st /\
  In (s, m) (Simplified.sent (Simplified.broadcastToAdmin m st)) /\
  In (s, DEVICE_STATUS_CHANGED d "online")
     (Simplified.sent (Simplified.onRegistered d (Simplified.onRegister s d st))).
Proof.
  intros Hin.
  split; [apply simplified_broadcast_sent|].
  split; [apply simplified_broadcast_clients|].
  split; [apply simplified_broadcast_clients|].
  split.
  - rewrite simplified_broadcast_sent. apply in_or_app. right.
    apply (in_map (fun c => (fst c, m)) _ (s, OPEN)).
    apply filter_In. split; auto.
  - unfold Simplified.onRegistered. rewrite simplified_broadcast_sent.
    apply in_or_app. right.
    apply (in_map (fun c => (fst c, DEVICE_STATUS_CHANGED d "online")) _ (s, OPEN)).
    apply filter_In. split; auto.
Qed.

Lemma simplified_broadcast_reaches_all_open_clients_witness :
  In (2, DEVICE_STATUS_CHANGED "d1" "online")
     (Simplified.sent (Simplified.onRegistered "d1"
                         (Simplified.onRegister 2 "d1" two_clients))).
Proof.
  apply (simplified_broadcast_reaches_all_open_clients two_clients UNBLOCK_DEVICE 2 "d1").
  vm_compute. left. reflexivity.
Defined.

(** In the simplified variant a command for a device id that has just
    registered on an open channel is delivered: sendToDevice returns true
    and writes the command to that channel. *)
Theorem simplified_send_after_register (st : Simplified.State) (s : WS) (d : string)
    (m : ServerMsg) :
  Simplified.readyState st s = OPEN ->
  Simplified.sendToDevice d m (Simplified.onRegister s d st)
  = (true, Simplified.write s m (Simplified.onRegister s d st)).
Proof.
  intros Ho. unfold Simplified.sendToDevice. simpl.
  rewrite jsmap_get_set_eq.
  change (Simplified.readyState (Simplified.onRegister s d st) s)
    with (Simplified.readyState st s).
  now rewrite Ho.
Qed.

Lemma simplified_send_after_register_witness :
  Simplified.sendToDevice "d1" UNBLOCK_DEVICE (Simplified.onRegister 2 "d1" two_clients)
  = (true, Simplified.write 2 UNBLOCK_DEVICE (Simplified.onRegister 2 "d1" two_clients)).
Proof.
  apply (simplified_send_after_register two_clients 2 "d1" UNBLOCK_DEVICE).
  vm_compute. reflexivity.
Defined.

(** In the simplified variant, once the close handler has removed the
    entry it found for the closing channel, a command for that device id
    is not delivered and nothing is written. *)
Theorem simplified_no_send_after_close (st : Simplified.State) (s c : WS) (d : string)
    (m : ServerMsg) :
  JSMap.wf (Simplified.deviceConnections st) ->
  JSMap.find (fun c => Nat.eqb c s) (Simplified.deviceConnections st) = Some (d, c) ->
  Simplified.sendToDevice d m (Simplified.onClose s st)
  = (false, Simplified.onClose s st).
Proof.
  intros Hwf F. unfold Simplified.sendToDevice, Simplified.onClose. cbv zeta.
  change (Simplified.deviceConnections (Simplified.closed s st))
    with (Simplified.deviceConnections st).
  rewrite F.
  rewrite (proj2 (simplified_broadcast_clients _ _)). simpl.
  now rewrite jsmap_get_delete_eq.
Qed.

Lemma simplified_no_send_after_close_witness :
  let st := Simplified.onRegister 2 "d1" two_clients in
  Simplified.sendToDevice "d1" UNBLOCK_DEVICE (Simplified.onClose 2 st)
  = (false, Simplified.onClose 2 st).
Proof.
  apply (simplified_no_send_after_close
           (Simplified.onRegister 2 "d1" two_clients) 2 2 "d1" UNBLOCK_DEVICE).
  - vm_compute. apply nodup_one.
  - vm_compute. reflexivity.
Defined.

(** ** Toggling the block of a device *)

Lemma filter_update_rows (k : string) (s : option string) (t : option Z)
    (rows : list DeviceRow) :
  filter (fun r => String.eqb (id r) k) (update_rows k s t rows)
  = map (update_row s t) (filter (fun r => String.eqb (id r) k) rows).
Proof.
  unfold update_rows. induction rows as [|r rows IH]; simpl; auto.
  destruct (String.eqb (id r) k) eqn:E; simpl; rewrite E; simpl; now rewrite IH.
Qed.

Lemma update_rows_twice (k : string) (s1 s2 : string) (rows : list DeviceRow) :
  update_rows k (Some s2) None (update_rows k (Some s1) None rows)
  = update_rows k (Some s2) None rows.
Proof.
  unfold update_rows. rewrite map_map. apply map_ext. intros r.
  destruct (String.eqb (id r) k) eqn:E; simpl; rewrite E; reflexivity.
Qed.

Lemma single_map_update (s : option string) (t : option Z) (rows : list DeviceRow)
    (row : DeviceRow) :
  single rows = Some row -> single (map (update_row s t) rows) = Some (update_row s t row).
Proof.
  destruct rows as [|r [|r' rows]]; simpl; try discriminate.
  intros H. now inversion H.
Qed.

(** Toggling the block of a device the store knows, twice and with no
    store error, answers success both times whether or not the device is
    connected; the status ends as blocked if it was blocked and as online
    in every other case, so a device that was offline is marked online
    after block and unblock. *)
Theorem toggle_block_twice (device_id : string) (rows : list DeviceRow)
    (st : Simplified.State) (row : DeviceRow) :
  single (filter (fun r => String.eqb (id r) device_id) rows) = Some row ->
  let first := Routes.toggleBlock device_id None rows st in
  let second := Routes.toggleBlock device_id None (snd (fst first)) (snd first) in
  let final := if String.eqb (status row) "blocked" then "blocked" else "online" in
  fst (fst first) = Routes.Toggled (Routes.newStatus (status row)) /\
  fst (fst second) = Routes.Toggled final /\
  snd (fst second) = update_rows device_id (Some final) None rows.
Proof.
  intros Hrow first second final.
  assert (first = (Routes.Toggled (Routes.newStatus (status row)),
                   update_rows device_id (Some (Routes.newStatus (status row))) None rows,
                   Simplified.broadcastToAdmin
                     (DEVICE_STATUS_CHANGED device_id (Routes.newStatus (status row)))
                     (snd (Simplified.sendToDevice device_id
                             (Routes.command (Routes.newStatus (status row))) st)))) as E1.
  { subst first. unfold Routes.toggleBlock. rewrite Hrow.
    destruct (Simplified.sendToDevice _ _ st); reflexivity. }
  assert (Routes.newStatus (Routes.newStatus (status row)) = final) as En.
  { subst final. unfold Routes.newStatus.
    destruct (String.eqb (status row) "blocked"); reflexivity. }
  subst second. rewrite E1. cbn [fst snd]. split; [reflexivity|].
  unfold Routes.toggleBlock.
  rewrite filter_update_rows, (single_map_update _ _ _ row Hrow).
  cbn [status update_row]. rewrite En.
  destruct (Simplified.sendToDevice device_id (Routes.command final) _).
  cbn [fst snd]. split; [reflexivity|]. apply update_rows_twice.
Qed.

Lemma toggle_block_twice_witness :
  let first := Routes.toggleBlock "d1" None [lobby] two_clients in
  let second := Routes.toggleBlock "d1" None (snd (fst first)) (snd first) in
  let final := if String.eqb (status lobby) "blocked" then "blocked" else "online" in
  fst (fst first) = Routes.Toggled (Routes.newStatus (status lobby)) /\
  fst (fst second) = Routes.Toggled final /\
  snd (fst second) = update_rows "d1" (Some final) None [lobby].
Proof.
  apply (toggle_block_twice "d1" [lobby] two_clients lobby).
  vm_compute. reflexivity.
Defined.

(** ** The HTTP middleware *)

(** requireRole lets a request pass exactly when it carries a user and one
    of the required roles is among the user's roles (the roles array when
    the user has one, else the single role); it answers 401 when there is
    no user and 403 otherwise, so an empty list of required roles lets
    nobody pass, and requiring more roles never turns a pass into a
    refusal. *)
Theorem requireRole_passes_iff (required more : list string)
    (user : option Http.User) :
  (Http.requireRole required user = Http.Next <->
   exists u r, user = Some u /\ In r required /\ In r (Http.userRoles u)) /\
  (Http.requireRole required None = Http.Status 401 "Authentication required") /\
  (forall u, Http.requireRole required (Some u) = Http.Next \/
             Http.requireRole required (Some u)
             = Http.Status 403 "Insufficient permissions") /\
  Http.requireRole [] user <> Http.Next /\
  (Http.requireRole required user = Http.Next ->
   Http.requireRole (required ++ more) user = Http.Next).
Proof.
  assert (forall req u,
            Http.requireRole req (Some u) = Http.Next <->
            exists r, In r req /\ In r (Http.userRoles u)) as Hiff.
  { intros req u. unfold Http.requireRole.
    destruct (existsb _ req) eqn:E.
    - split; auto. intros _. apply existsb_exists in E. destruct E as [r [Hr E]].
      apply existsb_exists in E. destruct E as [r' [Hr' E]].
      apply String.eqb_eq in E. subst r'. eauto.
    - split; [discriminate|]. intros [r [Hr Hu]].
      assert (existsb (fun r => existsb (String.eqb r) (Http.userRoles u)) req = true)
        as X; [|congruence].
      apply existsb_exists. exists r. split; auto.
      apply existsb_exists. exists r. split; auto. apply String.eqb_refl. }
  repeat split.
  - destruct user as [u|]; [|discriminate].
    intros H. apply Hiff in H. destruct H as [r [? ?]]. eauto.
  - intros [u [r [-> [Hr Hu]]]]. apply Hiff. eauto.
  - intros u. unfold Http.requireRole. destruct (existsb _ required); auto.
  - destruct user; discriminate.
  - destruct user as [u|]; [|discriminate].
    intros H. apply Hiff in H. destruct H as [r [Hr Hu]].
    apply Hiff. exists r. split; auto. apply in_or_app. now left.
Qed.

(** requirePermission lets a request pass exactly when it carries a user,
    the permission query succeeds and the table has a row with that user's
    id and the wanted permission; without a user or when the query fails
    it answers 500, otherwise 403. *)
Theorem requirePermission_passes_iff (wanted : string) (user : option Http.User)
    (table : option (list Http.PermissionRow)) :
  (Http.requirePermission wanted user table = Http.Next <->
   exists u rows, user = Some u /\ table = Some rows /\
                  In {| Http.perm_user_id := Http.user_id u;
                        Http.permission := wanted |} rows) /\
  (user = None \/ table = None ->
   exists e, Http.requirePermission wanted user table = Http.Status 500 e).
Proof.
  split.
  - unfold Http.requirePermission.
    destruct user as [u|]; [|split; [discriminate|intros [? [? [? _]]]; discriminate]].
    destruct table as [rows|];
      [|split; [discriminate|intros [? [? [_ [? _]]]]; discriminate]].
    destruct (existsb _ _) eqn:E.
    + split; auto. intros _. apply existsb_exists in E.
      destruct E as [[pu pp] [Hin Hp]]. apply filter_In in Hin.
      destruct Hin as [Hin Hu]. simpl in *.
      apply String.eqb_eq in Hp. apply String.eqb_eq in Hu. subst.
      exists u, rows. auto.
    + split; [discriminate|]. intros [u' [rows' [Hu [Hr Hin]]]].
      inversion Hu. inversion Hr. subst u' rows'.
      assert (existsb (fun p => String.eqb (Http.permission p) wanted)
                (filter (fun p => String.eqb (Http.perm_user_id p) (Http.user_id u)) rows)
              = true) as X; [|congruence].
      apply existsb_exists. eexists. split.
      * apply filter_In. split; [exact Hin|]. apply String.eqb_refl.
      * apply String.eqb_refl.
  - unfold Http.requirePermission. intros [->| ->].
    + eauto.
    + destruct user; eauto.
Qed.

Lemma substring_all (s : string) : String.substring 0 (String.length s) s = s.
Proof. induction s as [|a s IH]; simpl; auto. now rewrite IH. Qed.

Lemma substring_skip_prefix (p t : string) :
  String.substring (String.length p) (String.length (p ++ t) - String.length p) (p ++ t)
  = t.
Proof.
  induction p as [|a p IH]; simpl.
  - rewrite Nat.sub_0_r. apply substring_all.
  - exact IH.
Qed.

Lemma prefix_append (p t : string) : String.prefix p (p ++ t) = true.
Proof.
  induction p as [|a p IH]; simpl.
  - destruct t; reflexivity.
  - destruct (Ascii.ascii_dec a a); [exact IH|congruence].
Qed.

Lemma prefix_split (p s : string) :
  String.prefix p s = true ->
  s = (p ++ String.substring (String.length p) (String.length s - String.length p) s)%string.
Proof.
  revert s. induction p as [|a p IH]; intros s H.
  - simpl. rewrite Nat.sub_0_r. symmetry. apply substring_all.
  - destruct s as [|b s]; simpl in H; [discriminate|].
    destruct (Ascii.ascii_dec a b); [|discriminate].
    subst b. simpl. f_equal. now apply IH.
Qed.

(** authMiddleware lets a request pass, with the user attached, exactly
    when the Authorization header is 'Bearer ' followed by a token that
    verifies, the users table has exactly one row with the id the token
    carries, and that user is active; in every other case it answers 401
    and attaches no user. *)
Theorem authMiddleware_passes_iff (verify : string -> option string)
    (users : list Http.User) (authorization : option string) (u : Http.User) :
  (Http.authMiddleware verify users authorization = (Http.Next, Some u) <->
   exists token userId,
     authorization = Some ("Bearer " ++ token)%string /\
     verify token = Some userId /\
     Http.single_user (filter (fun x => String.eqb (Http.user_id x) userId) users)
       = Some u /\
     Http.is_active u = true) /\
  (fst (Http.authMiddleware verify users authorization) = Http.Next \/
   exists e, Http.authMiddleware verify users authorization = (Http.Status 401 e, None)).
Proof.
  split.
  - split.
    + unfold Http.authMiddleware.
      destruct authorization as [h|]; [|discriminate].
      destruct (String.prefix "Bearer " h) eqn:P; simpl; [|discriminate].
      destruct (verify _) as [uid|] eqn:V; [|discriminate].
      destruct (Http.single_user _) as [x|] eqn:S; [|discriminate].
      destruct (Http.is_active x) eqn:A; [|discriminate].
      intros H. inversion H. subst x.
      eexists _, uid. split; [|split; [exact V|split; [exact S|exact A]]].
      f_equal. exact (prefix_split "Bearer " h P).
    + intros [token [uid [-> [V [S A]]]]]. unfold Http.authMiddleware.
      rewrite prefix_append. simpl negb. cbv iota.
      change 7 with (String.length "Bearer ").
      rewrite substring_skip_prefix, V, S, A. reflexivity.
  - unfold Http.authMiddleware.
    destruct authorization as [h|]; [|right; eauto].
    destruct (String.prefix "Bearer " h); simpl; [|right; eauto].
    destruct (verify _); [|right; eauto].
    destruct (Http.single_user _) as [x|]; [|right; eauto].
    destruct (Http.is_active x); [left; reflexivity|right; eauto].
Qed.

(** ** A playback report, start to end *)

(** A PLAYBACK_LOG whose two requests are answered before any other event
    is processed appends the playback row to the store whether or not the
    device is known, publishes PLAYBACK_UPDATE for the device's tenant
    only when the store has exactly one row for the device id, and leaves
    both registries and the other outstanding requests as they were;
    the sender need not be registered. *)
Theorem playback_log_effect (w : World) (s : WS) (d c g : string)
    (duration startTime endTime : Z) :
  let row := {| pb_device_id := d; pb_content_id := c; pb_campaign_id := g;
                pb_duration := duration; pb_start_time := startTime;
                pb_end_time := endTime |} in
  let found := single (filter (fun r => String.eqb (id r) d) (devices (db w))) in
  let w' := exec [Message s (PLAYBACK_LOG d c g duration startTime endTime);
                  Reply (List.length (pending w)); Reply (List.length (pending w))] w in
  playback_logs (db w') = playback_logs (db w) ++ [row] /\
  devices (db w') = devices (db w) /\
  published w' = published w ++
                 match found with
                 | Some device => [(PLAYBACK_UPDATE d c g duration, tenant_id device)]
                 | None => []
                 end /\
  sent w' = sent w ++
            match found with
            | Some device => deliveries w (PLAYBACK_UPDATE d c g duration)
            | None => []
            end /\
  deviceConnections w' = deviceConnections w /\
  adminConnections w' = adminConnections w /\
  pending w' = pending w.
Proof.
  intros row found w'. subst w'.
  assert (step (Message s (PLAYBACK_LOG d c g duration startTime endTime)) w
          = set_pending (pending w ++ [(InsertPlaybackLog row, KPlInsert d c g duration)]) w)
    as E by reflexivity.
  rewrite exec_cons, E.
  rewrite exec_cons, (reply_last _ _ _ (pending w)) by reflexivity.
  assert (forall r w0, run (resume (KPlInsert d c g duration) r) w0
                       = set_pending (pending w0 ++ [(SelectDevice d, KPlSelect d c g duration)]) w0)
    as E2 by reflexivity.
  rewrite E2.
  rewrite exec_cons, (reply_last _ _ _ (pending w)) by reflexivity.
  cbn [exec fold_left]. simpl db_exec. cbn [fst snd].
  fold found. unfold run, resume, try_.
  destruct found as [device|].
  - rewrite broadcastToAdmins_exact. simpl. repeat split; auto.
  - simpl. rewrite !app_nil_r. repeat split; auto.
Qed.

(** ** What one event adds to the outstanding requests and to the broadcasts *)








(** ** The numbering of causes agrees with the execution *)
















(** On the schedule where the playback frame follows the registration frame
    at once, the frame is event 4 and DEVICE_ONLINE is issued during event
    9: the frame arrived while the registration awaited the backing store,
    and its PLAYBACK_UPDATE was issued during event 8. *)
Lemma frame_during_registration :
  causes (texec telemetry_behind_register (start store)) = [(4, 8); (3, 9)]%nat.
Proof. vm_compute. reflexivity. Qed.
